(** * MSTR capital analyzer: liquidation engine, debt parser, maturity analyzer

    A shallow embedding of the Python sources

      - [src/models/liquidation_calculator.py]  (module [Liquidation])
      - [src/visualizations/charts.py]          (module [Charts])
      - [src/parsers/debt_parser.py]            (module [DebtParser])
      - [src/models/maturity_analysis.py]       (module [MaturityAnalysis])
      - [src/utils/helpers.py]                  (module [Helpers])
      - [src/parsers/btc_parser.py]             (module [BtcParser])

    Numbers.  A Python [int]/[float] and a [numpy.float64] are modelled by
    the rational they denote, or by one of the non-finite values [inf],
    [-inf], [nan]; binary64 rounding, overflow to [inf], the
    [OverflowError] of an [int] too large for a float and the sign of zero
    are not modelled.  What is modelled is the one difference between the
    two families that the sources depend on: dividing built-in numbers by
    zero raises [ZeroDivisionError], dividing with a [numpy.float64]
    operand returns [inf] or [nan].

    Columns.  A converted column of a frame is a float64 column, in which
    a missing value is [nan], or, when no cell of it holds a number, an
    object column; the sum of the first is a [numpy.float64], the sum of
    the second the built-in [0]. *)

From Stdlib Require Import ZArith QArith Qabs Qround Bool List String Ascii.
From Stdlib Require Import Lia Lqa Permutation Sorted.
Import ListNotations.

Set Implicit Arguments.

(* ================================================================== *)
(** ** Python values: exceptions, numbers, truthiness *)
(* ================================================================== *)

Module Py.

Inductive exn : Type :=
| ZeroDivisionError
| ValueError
| KeyError
| AttributeError
| IndexError
| OverflowError.

Inductive result (A : Type) : Type :=
| Ok (a : A)
| Raise (e : exn).
Arguments Ok {A} a.
Arguments Raise {A} e.

Definition rbind {A B} (r : result A) (k : A -> result B) : result B :=
  match r with
  | Ok a => k a
  | Raise e => Raise e
  end.

(** Running [f] down a list, up to the first exception. *)
Fixpoint map_result {A B} (f : A -> result B) (xs : list A) : result (list B) :=
  match xs with
  | [] => Ok []
  | x :: xs' =>
      rbind (f x) (fun y => rbind (map_result f xs') (fun ys => Ok (y :: ys)))
  end.

(** The value of a float: finite, or one of the three special values. *)
Inductive xval : Type :=
| Fin (q : Q)
| PInf
| NInf
| NaN.

Definition xsgn (x : xval) : Z :=
  match x with
  | Fin q => Z.sgn (Qnum q)
  | PInf => 1
  | NInf => -1
  | NaN => 0
  end.

Definition xinf_of_sgn (s : Z) : xval :=
  match s with
  | Z0 => NaN
  | Zpos _ => PInf
  | Zneg _ => NInf
  end.

Definition Qis_zero (q : Q) : bool := Z.eqb (Qnum q) 0.

Definition xis_zero (x : xval) : bool :=
  match x with
  | Fin q => Qis_zero q
  | _ => false
  end.

Definition xis_nan (x : xval) : bool :=
  match x with
  | NaN => true
  | _ => false
  end.

Definition xneg (x : xval) : xval :=
  match x with
  | Fin q => Fin (- q)
  | PInf => NInf
  | NInf => PInf
  | NaN => NaN
  end.

Definition xadd (a b : xval) : xval :=
  match a, b with
  | NaN, _ | _, NaN => NaN
  | Fin p, Fin q => Fin (p + q)
  | PInf, NInf | NInf, PInf => NaN
  | PInf, _ | _, PInf => PInf
  | NInf, _ | _, NInf => NInf
  end.

Definition xsub (a b : xval) : xval := xadd a (xneg b).

Definition xmul (a b : xval) : xval :=
  match a, b with
  | NaN, _ | _, NaN => NaN
  | Fin p, Fin q => Fin (p * q)
  | _, _ => xinf_of_sgn (xsgn a * xsgn b)
  end.

(** IEEE division, as [numpy.float64] performs it: [x/0] is [nan] for
    [x = 0] and an infinity of the sign of [x] otherwise. *)
Definition xdiv (a b : xval) : xval :=
  match a, b with
  | NaN, _ | _, NaN => NaN
  | Fin p, Fin q => if Qis_zero q then xinf_of_sgn (xsgn a) else Fin (p / q)
  | Fin _, _ => Fin 0
  | _, Fin q => if Qis_zero q then a else xinf_of_sgn (xsgn a * xsgn b)
  | _, _ => NaN
  end.

(** [a < b] on floats; every comparison with [nan] is false. *)
Definition xlt (a b : xval) : bool :=
  match a, b with
  | NaN, _ | _, NaN => false
  | Fin p, Fin q => negb (Qle_bool q p)
  | NInf, NInf => false
  | NInf, _ => true
  | _, PInf => negb (match a with PInf => true | _ => false end)
  | _, _ => false
  end.

(** [a <= b] on floats, as a proposition; false as soon as one is [nan]. *)
Definition xle (a b : xval) : Prop :=
  match a, b with
  | NaN, _ | _, NaN => False
  | Fin p, Fin q => p <= q
  | NInf, _ | _, PInf => True
  | _, _ => False
  end.

(** Equality of float values up to the representation of the rational. *)
Definition xeq (a b : xval) : Prop :=
  match a, b with
  | Fin p, Fin q => p == q
  | PInf, PInf | NInf, NInf | NaN, NaN => True
  | _, _ => False
  end.

(** A number together with its family: [np = true] for [numpy.float64],
    [np = false] for the built-in [int] and [float]. *)
Record num : Type := Num { np : bool; val : xval }.

Definition py (q : Q) : num := Num false (Fin q).
Definition npf (x : xval) : num := Num true x.

Definition num_mul (a b : num) : num :=
  Num (np a || np b) (xmul (val a) (val b)).

Definition num_sub (a b : num) : num :=
  Num (np a || np b) (xsub (val a) (val b)).

(** [a / b]: numpy semantics as soon as one operand is a [numpy.float64],
    else the built-in division, which raises on a zero divisor. *)
Definition num_div (a b : num) : result num :=
  if np a || np b then Ok (Num true (xdiv (val a) (val b)))
  else if xis_zero (val b) then Raise ZeroDivisionError
  else Ok (Num false (xdiv (val a) (val b))).

Definition num_lt (a b : num) : bool := xlt (val a) (val b).

(** [bool(x)] for a number: false exactly for zero ([nan] is truthy). *)
Definition truthy (a : num) : bool := negb (xis_zero (val a)).

End Py.
Import Py.

(* ================================================================== *)
(** ** src/models/liquidation_calculator.py *)
(* ================================================================== *)

Module Liquidation.

(** The attributes of a [LiquidationCalculator] instance. *)
Record LiquidationCalculator : Type := mkCalc {
  btc_holdings : num;
  btc_price : num;
  total_debt : num;
  annual_interest : num
}.

(** [__init__]: debt and interest arrive in millions. *)
Definition __init__ (btc_holdings0 btc_price0 total_debt0 annual_interest0 : num)
  : LiquidationCalculator :=
  {| btc_holdings := btc_holdings0;
     btc_price := btc_price0;
     total_debt := num_mul total_debt0 (py 1000000);
     annual_interest := num_mul annual_interest0 (py 1000000) |}.

(** Methods run against the instance they are called on: a computation
    reads and may assign the attributes of [self], and either returns or
    raises; the instance as it is at that moment is returned alongside. *)
Definition M (A : Type) : Type :=
  LiquidationCalculator -> result A * LiquidationCalculator.

Definition ret {A} (a : A) : M A := fun self => (Ok a, self).

Definition bind {A B} (m : M A) (k : A -> M B) : M B :=
  fun self =>
    match m self with
    | (Ok a, self') => k a self'
    | (Raise e, self') => (Raise e, self')
    end.

Definition lift {A} (r : result A) : M A := fun self => (r, self).

Definition getattr (f : LiquidationCalculator -> num) : M num :=
  fun self => (Ok (f self), self).

(** [self.total_debt = v] *)
Definition set_total_debt (v : num) : M unit :=
  fun self =>
    (Ok tt, {| btc_holdings := btc_holdings self;
               btc_price := btc_price self;
               total_debt := v;
               annual_interest := annual_interest self |}).

Declare Scope py_scope.
Delimit Scope py_scope with py.
Notation "x <- m ;; k" := (bind m (fun x => k))
  (at level 61, m at next level, right associativity) : py_scope.
Notation "m ;;; k" := (bind m (fun _ => k))
  (at level 61, right associativity) : py_scope.
Local Open Scope py_scope.

Fixpoint for_each {A B} (xs : list A) (body : A -> M B) : M (list B) :=
  match xs with
  | [] => ret []
  | x :: xs' =>
      y <- body x ;;
      ys <- for_each xs' body ;;
      ret (y :: ys)
  end.

(** [btc_price or self.btc_price]: the argument when it is given and
    truthy, else the attribute. *)
Definition price_or_default (btc_price_arg : option num) : M num :=
  match btc_price_arg with
  | Some p => if truthy p then ret p else getattr btc_price
  | None => getattr btc_price
  end.

Definition calculate_btc_value (btc_price_arg : option num) : M num :=
  price <- price_or_default btc_price_arg ;;
  holdings <- getattr btc_holdings ;;
  ret (num_mul holdings price).

Definition calculate_ltv_ratio (btc_price_arg : option num) : M num :=
  btc_value <- calculate_btc_value btc_price_arg ;;
  debt <- getattr total_debt ;;
  lift (num_div debt btc_value).

Definition calculate_collateral_coverage (btc_price_arg : option num) : M num :=
  ltv <- calculate_ltv_ratio btc_price_arg ;;
  lift (num_div (py 1) ltv).

Definition calculate_liquidation_price (target_ltv : num) : M num :=
  debt <- getattr total_debt ;;
  holdings <- getattr btc_holdings ;;
  lift (num_div debt (num_mul holdings target_ltv)).

Record MarginOfSafety : Type := mkMargin {
  current_price : num;
  liquidation_price : num;
  price_drop_dollars : num;
  price_drop_percent : num;
  current_ltv : num;
  target_ltv_used : num
}.

Definition calculate_margin_of_safety (target_ltv : num) : M MarginOfSafety :=
  liq_price <- calculate_liquidation_price target_ltv ;;
  price <- getattr btc_price ;;
  let price_drop := num_sub price liq_price in
  ratio <- lift (num_div price_drop price) ;;
  let pct_drop := num_mul ratio (py 100) in
  ltv <- calculate_ltv_ratio None ;;
  ret {| current_price := price;
         liquidation_price := liq_price;
         price_drop_dollars := price_drop;
         price_drop_percent := pct_drop;
         current_ltv := ltv;
         target_ltv_used := target_ltv |}.

(** [calculate_interest_coverage], on the numbers of the model (an
    [int] income too large for a float is not among them). *)
Definition calculate_interest_coverage (operating_income_annual : num) : M num :=
  interest <- getattr annual_interest ;;
  if xis_zero (val interest) then ret (Num false PInf)
  else lift (num_div (num_mul operating_income_annual (py 1000000)) interest).

Inductive status : Type := Safe | Caution | Warning | Danger.

Definition _get_status (ltv : num) : status :=
  if num_lt ltv (py (50 # 100)) then Safe
  else if num_lt ltv (py (65 # 100)) then Caution
  else if num_lt ltv (py (85 # 100)) then Warning
  else Danger.

(** One row of the stress-test table.  The source renders the numbers
    with f-strings; the row keeps the numbers that are rendered. *)
Record ScenarioRow : Type := mkRow {
  Scenario : string;
  BTC_Price : num;
  BTC_Holdings_Value_M : num;
  LTV_Ratio : num;
  Collateral_Coverage : num;
  Status : status
}.

Definition stress_test_scenarios : M (list ScenarioRow) :=
  current <- getattr btc_price ;;
  let scenarios :=
    [ ("Current"%string, current);
      ("-20%"%string, num_mul current (py (8 # 10)));
      ("-30%"%string, num_mul current (py (7 # 10)));
      ("-40%"%string, num_mul current (py (6 # 10)));
      ("-50%"%string, num_mul current (py (5 # 10)));
      ("-60%"%string, num_mul current (py (4 # 10)));
      ("-70%"%string, num_mul current (py (3 # 10))) ] in
  for_each scenarios (fun '(name, price) =>
    ltv <- calculate_ltv_ratio (Some price) ;;
    collateral_cov <- calculate_collateral_coverage (Some price) ;;
    btc_value <- calculate_btc_value (Some price) ;;
    value_m <- lift (num_div btc_value (py 1000000)) ;;
    ret {| Scenario := name;
           BTC_Price := price;
           BTC_Holdings_Value_M := value_m;
           LTV_Ratio := ltv;
           Collateral_Coverage := collateral_cov;
           Status := _get_status ltv |}).

(** The calculator of the module's [__main__] block. *)
Definition example_calc : LiquidationCalculator :=
  __init__ (py 447470) (py 100000) (py 8214) (py (8214 * (421 # 100000))).

End Liquidation.


(* ================================================================== *)
(** ** src/visualizations/charts.py *)
(* ================================================================== *)

Module Charts.
Import Liquidation.
Local Open Scope py_scope.

(** [xs[i]] on a Python sequence. *)
Definition index {A} (xs : list A) (i : nat) : result A :=
  match nth_error xs i with
  | Some x => Ok x
  | None => Raise IndexError
  end.

(** [np.linspace(start, stop, n)] for [n >= 2]: [n] evenly spaced
    [numpy.float64] samples, the last one set to [stop]. *)
Definition np_linspace (start stop : num) (n : nat) : list num :=
  let step := xdiv (xsub (val stop) (val start))
                   (Fin (inject_Z (Z.of_nat (n - 1)))) in
  map (fun i => npf (xadd (xmul (Fin (inject_Z (Z.of_nat i))) step) (val start)))
      (seq 0 (n - 1))
  ++ [npf (val stop)].

(** The nested loop of [create_ltv_heatmap] (lines 31-34): every cell
    first assigns [calc.total_debt] on the calculator it was handed. *)
Definition heatmap_sweep (original_debt : num) (debt_multipliers btc_prices : list num)
  : M (list (list num)) :=
  for_each debt_multipliers (fun debt_mult =>
    for_each btc_prices (fun btc_price =>
      set_total_debt (num_mul original_debt debt_mult) ;;;
      ltv <- calculate_ltv_ratio (Some btc_price) ;;
      ret (num_mul ltv (py 100)))).

(** What the figure is built from: the matrix and its two axes. *)
Record Heatmap : Type := mkHeatmap {
  heat_z : list (list num);
  heat_x : list num;
  heat_y : list num
}.

Definition create_ltv_heatmap (btc_price_range debt_range : list num) : M Heatmap :=
  p0 <- lift (index btc_price_range 0) ;;
  p1 <- lift (index btc_price_range 1) ;;
  let btc_prices := np_linspace p0 p1 20 in
  d0 <- lift (index debt_range 0) ;;
  d1 <- lift (index debt_range 1) ;;
  let debt_multipliers := np_linspace d0 d1 15 in
  original_debt <- getattr total_debt ;;
  ltv_matrix <- heatmap_sweep original_debt debt_multipliers btc_prices ;;
  set_total_debt original_debt ;;;
  ret {| heat_z := ltv_matrix; heat_x := btc_prices; heat_y := debt_multipliers |}.

End Charts.


(* ================================================================== *)
(** ** src/parsers/debt_parser.py *)
(* ================================================================== *)

Module DebtParser.

Local Open Scope char_scope.

Definition code (c : ascii) : nat := nat_of_ascii c.

Definition is_digit (c : ascii) : bool :=
  (48 <=? code c)%nat && (code c <=? 57)%nat.

Definition digit_val (c : ascii) : Z := Z.of_nat (code c - 48).

(** ASCII white space, as [str.strip] and [float] see it. *)
Definition is_space (c : ascii) : bool :=
  ((9 <=? code c)%nat && (code c <=? 13)%nat)
  || ((28 <=? code c)%nat && (code c <=? 32)%nat).

Definition to_lower (c : ascii) : ascii :=
  if (65 <=? code c)%nat && (code c <=? 90)%nat
  then ascii_of_nat (code c + 32) else c.

Fixpoint lstrip (cs : list ascii) : list ascii :=
  match cs with
  | c :: cs' => if is_space c then lstrip cs' else cs
  | [] => []
  end.

Definition strip (cs : list ascii) : list ascii :=
  rev (lstrip (rev (lstrip cs))).

Definition chars_eqb (a b : list ascii) : bool :=
  String.eqb (string_of_list_ascii a) (string_of_list_ascii b).

(** A run of decimal digits in which single underscores may separate
    digits: value so far, number of digits read, and what is left. *)
Fixpoint digits (acc : Z) (n : nat) (cs : list ascii) : Z * nat * list ascii :=
  match cs with
  | c :: cs' =>
      if is_digit c then digits (acc * 10 + digit_val c) (S n) cs'
      else if Ascii.eqb c "_" && (0 <? n)%nat then
        match cs' with
        | d :: cs'' =>
            if is_digit d then digits (acc * 10 + digit_val d) (S n) cs''
            else (acc, n, cs)
        | [] => (acc, n, cs)
        end
      else (acc, n, cs)
  | [] => (acc, n, [])
  end.

(** The exponent part, which must end the literal: nothing, or [e]/[E],
    an optional sign and at least one digit. *)
Definition exponent (cs : list ascii) : option Z :=
  match cs with
  | [] => Some 0%Z
  | c :: cs' =>
      if Ascii.eqb (to_lower c) "e" then
        let '(neg, ds) :=
          match cs' with
          | "-" :: r => (true, r)
          | "+" :: r => (false, r)
          | _ => (false, cs')
          end in
        match digits 0 0 ds with
        | (v, S _, []) => Some (if neg then (- v)%Z else v)
        | _ => None
        end
      else None
  end.

(** An unsigned decimal literal: [12], [12.], [.5], [1_000.25e-3]. *)
Definition decimal (cs : list ascii) : option Q :=
  let '(ip, ni, r1) := digits 0 0 cs in
  let '(fp, nf, r2) :=
    match r1 with
    | "." :: r => digits 0 0 r
    | _ => (0%Z, 0%nat, r1)
    end in
  if (ni + nf =? 0)%nat then None
  else
    match exponent r2 with
    | Some e =>
        Some (inject_Z (ip * 10 ^ Z.of_nat nf + fp)
              * Qpower (10 # 1) (e - Z.of_nat nf))
    | None => None
    end.

(** [float(s)] on a string: surrounding white space, a sign, then
    [inf], [infinity] or [nan] in any case, or a decimal literal;
    anything else raises [ValueError]. *)
Definition py_float (s : string) : result xval :=
  let cs := strip (list_ascii_of_string s) in
  let '(neg, body) :=
    match cs with
    | "-" :: r => (true, r)
    | "+" :: r => (false, r)
    | _ => (false, cs)
    end in
  let lower := map to_lower body in
  if chars_eqb lower (list_ascii_of_string "inf")
     || chars_eqb lower (list_ascii_of_string "infinity")
  then Ok (if neg then NInf else PInf)
  else if chars_eqb lower (list_ascii_of_string "nan") then Ok NaN
  else
    match decimal body with
    | Some q => Ok (Fin (if neg then - q else q))
    | None => Raise ValueError
    end.

Local Open Scope string_scope.

(** [not value_str or value_str == '—'] *)
Definition is_blank (value_str : option string) : bool :=
  match value_str with
  | None => true
  | Some s => String.eqb s "" || String.eqb s "—"
  end.

Definition remove_chars (drop : ascii -> bool) (s : string) : string :=
  string_of_list_ascii (filter (fun c => negb (drop c)) (list_ascii_of_string s)).

Definition parse_currency (value_str : option string) : result (option xval) :=
  match value_str with
  | Some s =>
      if is_blank value_str then Ok None
      else
        let cleaned :=
          remove_chars (fun c => Ascii.eqb c "$" || Ascii.eqb c ",") s in
        rbind (py_float cleaned) (fun v => Ok (Some v))
  | None => Ok None
  end.

Definition parse_percentage (value_str : option string) : result (option xval) :=
  match value_str with
  | Some s =>
      if is_blank value_str then Ok None
      else
        let cleaned := remove_chars (fun c => Ascii.eqb c "%") s in
        rbind (py_float cleaned) (fun v => Ok (Some v))
  | None => Ok None
  end.

(** A [datetime] at midnight. *)
Record datetime : Type := mkDate { year : Z; month : Z; day : Z }.

Fixpoint split_on (sep : ascii) (cs : list ascii) : list (list ascii) :=
  match cs with
  | [] => [[]]
  | c :: cs' =>
      if Ascii.eqb c sep then [] :: split_on sep cs'
      else
        match split_on sep cs' with
        | w :: ws => (c :: w) :: ws
        | [] => [[c]]
        end
  end.

(** [%m]: [1[0-2]|0[1-9]|[1-9]] *)
Definition directive_m (cs : list ascii) : option Z :=
  match cs with
  | [a] => if is_digit a && negb (Ascii.eqb a "0") then Some (digit_val a) else None
  | [a; b] =>
      if (Ascii.eqb a "1" && is_digit b && (digit_val b <=? 2)%Z)
         || (Ascii.eqb a "0" && is_digit b && negb (Ascii.eqb b "0"))
      then Some (digit_val a * 10 + digit_val b)%Z else None
  | _ => None
  end.

(** [%d]: [3[01]|[12]\d|0[1-9]|[1-9]| [1-9]] *)
Definition directive_d (cs : list ascii) : option Z :=
  match cs with
  | [a] => if is_digit a && negb (Ascii.eqb a "0") then Some (digit_val a) else None
  | [a; b] =>
      if (Ascii.eqb a "3" && is_digit b && (digit_val b <=? 1)%Z)
         || ((Ascii.eqb a "1" || Ascii.eqb a "2") && is_digit b)
         || (Ascii.eqb a "0" && is_digit b && negb (Ascii.eqb b "0"))
      then Some (digit_val a * 10 + digit_val b)%Z
      else if Ascii.eqb a " " && is_digit b && negb (Ascii.eqb b "0")
      then Some (digit_val b) else None
  | _ => None
  end.

(** [%Y]: exactly four digits. *)
Definition directive_Y (cs : list ascii) : option Z :=
  match cs with
  | [a; b; c; d] =>
      if is_digit a && is_digit b && is_digit c && is_digit d
      then Some (((digit_val a * 10 + digit_val b) * 10 + digit_val c) * 10
                 + digit_val d)%Z
      else None
  | _ => None
  end.

Definition is_leap (y : Z) : bool :=
  ((y mod 4 =? 0) && (negb (y mod 100 =? 0) || (y mod 400 =? 0)))%Z.

Definition days_in_month (y m : Z) : Z :=
  if (m =? 2)%Z then (if is_leap y then 29 else 28)%Z
  else if ((m =? 4) || (m =? 6) || (m =? 9) || (m =? 11))%Z then 30%Z
  else 31%Z.

(** [datetime.strptime(s, '%m/%d/%Y')] *)
Definition strptime_mdY (s : string) : result datetime :=
  match split_on "/" (list_ascii_of_string s) with
  | [m; d; y] =>
      match directive_m m, directive_d d, directive_Y y with
      | Some mo, Some da, Some ye =>
          if ((1 <=? ye) && (da <=? days_in_month ye mo))%Z
          then Ok {| year := ye; month := mo; day := da |}
          else Raise ValueError
      | _, _, _ => Raise ValueError
      end
  | _ => Raise ValueError
  end.

(** [parse_date] catches the [ValueError] of [strptime]. *)
Definition parse_date (date_str : option string) : option datetime :=
  match date_str with
  | Some s =>
      if is_blank date_str then None
      else
        match strptime_mdY s with
        | Ok d => Some d
        | Raise _ => None
        end
  | None => None
  end.


(** *** The table, as BeautifulSoup hands it over *)

(** A header cell: its [aria-label] attribute, if any, and its text. *)
Record Th : Type := mkTh { aria_label : option string; th_text : string }.

(** A body row: its [class] list and the stripped text of its [td]s. *)
Record Tr : Type := mkTr { tr_class : list string; td_texts : list string }.

(** A [table]: the first [tr] of its [thead] (either may be missing) and
    the rows directly under its [tbody] (which may be missing). *)
Record Table : Type := mkTable {
  thead_tr : option (option (list Th));
  tbody : option (list Tr)
}.

(** ['totalsRow' in cls] *)
Fixpoint contains (needle hay : string) : bool :=
  prefix needle hay
  || match hay with
     | EmptyString => false
     | String _ hay' => contains needle hay'
     end.

(** *** The frame, column by column *)

Inductive cell : Type :=
| CText (s : option string)       (* raw text, or the [None] of a short row *)
| CDate (d : option datetime)     (* a date, or NaT *)
| CFloat (x : xval).              (* a float64; nan is the missing value *)

Record DataFrame : Type := mkFrame {
  columns : list string;
  data : list (list cell)
}.

Definition pad (w : nat) (row : list string) : list cell :=
  map (fun s => CText (Some s)) row ++ repeat (CText None) (w - List.length row).

(** [pd.DataFrame(rows_data, columns=headers)]: short rows are filled
    with [None]; a width other than the number of headers is an error. *)
Definition new_DataFrame (rows_data : list (list string)) (headers : list string)
  : result DataFrame :=
  match rows_data with
  | [] => Ok {| columns := headers; data := [] |}
  | _ =>
      let w := fold_right Nat.max 0%nat (map (@List.length string) rows_data) in
      if (w =? List.length headers)%nat
      then Ok {| columns := headers; data := map (pad w) rows_data |}
      else Raise ValueError
  end.

(** The position of a label among the columns, and how often the label
    occurs among them. *)
Definition occurrences (name : string) (cols : list string) : nat :=
  List.length (filter (String.eqb name) cols).

Fixpoint find_col (name : string) (cols : list string) : option nat :=
  match cols with
  | [] => None
  | c :: cols' =>
      if String.eqb c name then Some 0%nat
      else option_map S (find_col name cols')
  end.

Fixpoint update_nth {A} (i : nat) (f : A -> result A) (xs : list A)
  {struct xs} : result (list A) :=
  match xs, i with
  | [], _ => Ok []
  | x :: xs', O => rbind (f x) (fun y => Ok (y :: xs'))
  | x :: xs', S i' => rbind (update_nth i' f xs') (fun ys => Ok (x :: ys))
  end.

(** [df[name] = df[name].apply(f)]: [KeyError] when the column is
    missing.  When the label stands over one column, [f] runs down the
    column, and the first exception it raises ends the whole statement.
    When it stands over several, [df[name]] is a frame and [apply] hands
    [f] whole columns: the test [not value_str] that each of the three
    converters starts with is a [ValueError] on a column; a frame without
    rows is left as it is, [f] being called on no column of it. *)
Definition apply_column (name : string) (f : option string -> result cell)
  (df : DataFrame) : result DataFrame :=
  match find_col name (columns df) with
  | None => Raise KeyError
  | Some i =>
      if (1 <? occurrences name (columns df))%nat then
        match data df with
        | [] => Ok df
        | _ :: _ => Raise ValueError
        end
      else
        let on_cell c :=
          match c with
          | CText s => f s
          | _ => Ok c
          end in
        rbind (map_result (update_nth i on_cell) (data df))
              (fun rows => Ok {| columns := columns df; data := rows |})
  end.

Definition date_cell (s : option string) : result cell :=
  Ok (CDate (parse_date s)).

Definition float_cell (parse : option string -> result (option xval))
  (s : option string) : result cell :=
  rbind (parse s) (fun v =>
    Ok (CFloat (match v with Some x => x | None => NaN end))).

(** The header labels: [th.get('aria-label', th.get_text(strip=True))]. *)
Definition header_label (th : Th) : string :=
  match aria_label th with
  | Some label => label
  | None => th_text th
  end.

(** The body rows kept: not a totals row, and at least one cell. *)
Definition keep_row (tr : Tr) : bool :=
  negb (existsb (contains "totalsRow") (tr_class tr))
  && negb (match td_texts tr with [] => true | _ => false end).

(** [parse_debt_data], from [soup.find('table')] on. *)
Definition parse_debt_data (soup_table : option Table) : result DataFrame :=
  match soup_table with
  | None => Raise ValueError
  | Some table =>
      match thead_tr table with
      | None | Some None => Raise AttributeError
      | Some (Some ths) =>
          let headers := map header_label ths in
          match tbody table with
          | None => Raise AttributeError
          | Some trs =>
              let rows_data := map td_texts (filter keep_row trs) in
              rbind (new_DataFrame rows_data headers) (fun df =>
              rbind (apply_column "Issue Date" date_cell df) (fun df =>
              rbind (apply_column "Maturity" date_cell df) (fun df =>
              rbind (apply_column "Put Date" date_cell df) (fun df =>
              rbind (apply_column "Earliest Call Date" date_cell df) (fun df =>
              rbind (apply_column "Price" (float_cell parse_currency) df) (fun df =>
              rbind (apply_column "Coupon" (float_cell parse_percentage) df) (fun df =>
              rbind (apply_column "Notional ($M)" (float_cell parse_currency) df) (fun df =>
              rbind (apply_column "Market Val ($M)" (float_cell parse_currency) df) (fun df =>
              rbind (apply_column "BTC Par" (float_cell parse_currency) df) (fun df =>
              rbind (apply_column "Ref Price" (float_cell parse_currency) df) (fun df =>
              apply_column "Conversion Price" (float_cell parse_currency) df)))))))))))
          end
      end
  end.

(** *** Aggregation *)

(** A row of a parsed frame, through the columns the aggregator and the
    maturity analyzer read.  Dates are instants on the time axis, in
    microseconds; [None] is NaT, [NaN] the missing float. *)
Record BondRecord : Type := mkBond {
  Name : string;
  Maturity : option Z;
  Put_Date : option Z;
  Coupon : xval;
  Notional : xval;
  Market_Val : xval;
  Conversion_Price : xval
}.

(** The sum of a float64 column: missing values count as zero; a
    [numpy.float64]. *)
Definition nansum (col : list xval) : num :=
  npf (fold_left xadd (map (fun v => if xis_nan v then Fin 0 else v) col) (Fin 0)).

(** The dtype of a converted column.  [Series.apply] makes a float64
    column, with nan for [None], of a column in which at least one cell
    came out as a float; a column in which every cell came out as [None],
    and a column without cells, stays an object column. *)
Inductive dtype : Type := float64 | object.

Definition column_dtype (cells : list (option xval)) : dtype :=
  if existsb (fun c => match c with Some _ => true | None => false end) cells
  then float64 else object.

(** [Series.sum()]: on a float64 column the sum above; on an object
    column, which holds nothing but missing values, the built-in [0]. *)
Definition Series_sum (dt : dtype) (col : list xval) : num :=
  match dt with
  | float64 => nansum col
  | object => py 0
  end.

(** [a * b] on two columns of one frame. *)
Definition series_mul (a b : BondRecord -> xval) (df : list BondRecord) : list xval :=
  map (fun r => xmul (a r) (b r)) df.

(** [Series.min()] / [Series.max()] on a date column, NaT skipped. *)
Definition date_fold (pick : Z -> Z -> Z) (col : list (option Z)) : option Z :=
  fold_left (fun acc d =>
               match acc, d with
               | Some a, Some t => Some (pick a t)
               | None, _ => d
               | _, None => acc
               end) col None.

Record DebtMetrics : Type := mkMetrics {
  total_notional : num;
  total_market_value : num;
  weighted_avg_coupon : num;
  weighted_avg_conversion_price : num;
  num_bonds : nat;
  nearest_maturity : option Z;
  furthest_maturity : option Z
}.

(** [calculate_debt_metrics].  The frame is given by its rows and by
    the dtype of its [Notional ($M)] column, the one the two averages
    divide by; the other float columns are float64 columns.  A product
    with an object column is an object column of missing values. *)
Definition calculate_debt_metrics (Notional_dtype : dtype) (df : list BondRecord)
  : result DebtMetrics :=
  let sum := Series_sum Notional_dtype in
  rbind (num_div (sum (series_mul Coupon Notional df))
                 (sum (map Notional df))) (fun avg_coupon =>
  rbind (num_div (sum (series_mul Conversion_Price Notional df))
                 (sum (map Notional df))) (fun avg_conversion =>
  Ok {| total_notional := sum (map Notional df);
        total_market_value := nansum (map Market_Val df);
        weighted_avg_coupon := avg_coupon;
        weighted_avg_conversion_price := avg_conversion;
        num_bonds := List.length df;
        nearest_maturity := date_fold Z.min (map Maturity df);
        furthest_maturity := date_fold Z.max (map Maturity df) |})).

End DebtParser.


(* ================================================================== *)
(** ** src/models/maturity_analysis.py *)
(* ================================================================== *)

Module MaturityAnalysis.
Import DebtParser.

(** Microseconds in a day. *)
Definition day_us : Z := 86400000000.

(** Rounding to the nearest integer, ties to the even one: what
    [Series.round] and the [timedelta] constructor apply. *)
Definition round_half_even (q : Q) : Z :=
  let f := Qfloor q in
  match (q - inject_Z f ?= 1 # 2)%Q with
  | Lt => f
  | Gt => (f + 1)%Z
  | Eq => if Z.even f then f else (f + 1)%Z
  end.

(** [timedelta(days=d)], in microseconds. *)
Definition timedelta_days (d : Q) : Z :=
  round_half_even (d * inject_Z day_us)%Q.

(** The order [sort_values] puts dates in: ascending, NaT last. *)
Definition maturity_leb (a b : option Z) : bool :=
  match a, b with
  | Some s, Some t => (s <=? t)%Z
  | _, None => true
  | None, Some _ => false
  end.

Fixpoint insert_sorted (r : BondRecord) (sorted : list BondRecord) : list BondRecord :=
  match sorted with
  | [] => [r]
  | r' :: rest =>
      if maturity_leb (Maturity r) (Maturity r') then r :: sorted
      else r' :: insert_sorted r rest
  end.

(** [df.sort_values('Maturity')]: rows of equal date keep their order. *)
Definition sort_values_Maturity (df : list BondRecord) : list BondRecord :=
  fold_right insert_sorted [] df.

Record MaturityAnalyzer : Type := mkAnalyzer { debt_df : list BondRecord }.

(** [__init__]: copy the frame and sort it by maturity. *)
Definition __init__ (debt_df0 : list BondRecord) : MaturityAnalyzer :=
  {| debt_df := sort_values_Maturity debt_df0 |}.

Record ScheduleEntry : Type := mkEntry {
  entry_Name : string;
  entry_Maturity : option Z;
  entry_Notional : xval;
  entry_Coupon : xval;
  entry_Put_Date : option Z;
  Years_to_Maturity : xval;
  Years_to_Put : xval
}.

(** [((date - now).dt.days / 365.25).round(2)], nan for NaT. *)
Definition years_to (now : Z) (date : option Z) : xval :=
  match date with
  | Some t =>
      let days := ((t - now) / day_us)%Z in
      Fin (inject_Z (round_half_even (inject_Z days / (36525 # 100) * 100)%Q) / 100)
  | None => NaN
  end.

(** [get_maturity_schedule]; [now] is what [pd.Timestamp.now()] returns. *)
Definition get_maturity_schedule (self : MaturityAnalyzer) (now : Z)
  : list ScheduleEntry :=
  map (fun r =>
         {| entry_Name := Name r;
            entry_Maturity := Maturity r;
            entry_Notional := Notional r;
            entry_Coupon := Coupon r;
            entry_Put_Date := Put_Date r;
            Years_to_Maturity := years_to now (Maturity r);
            Years_to_Put := years_to now (Put_Date r) |})
      (debt_df self).

Record Rollover : Type := mkRollover {
  total_maturing : num;
  number_of_bonds : nat;
  years_analyzed : Q;
  percentage_of_total : num
}.

(** [schedule['Maturity'] <= cutoff_date]; false on NaT. *)
Definition matures_by (cutoff_date : Z) (e : ScheduleEntry) : bool :=
  match entry_Maturity e with
  | Some t => (t <=? cutoff_date)%Z
  | None => false
  end.

(** The instants a [datetime] can hold, 0001-01-01 00:00:00 to
    9999-12-31 23:59:59.999999, in microseconds from 1970-01-01. *)
Definition datetime_min : Z := -62135596800000000.
Definition datetime_max : Z := 253402300799999999.

(** [timedelta(days=d)] as the constructor checks it: a span of more
    than 999,999,999 days, either way, is an [OverflowError]. *)
Definition timedelta (days : Q) : result Z :=
  let delta := timedelta_days days in
  if ((-999999999 <=? delta / day_us) && (delta / day_us <=? 999999999))%Z
  then Ok delta
  else Raise OverflowError.

(** [datetime + timedelta]: an [OverflowError] when the sum is before
    year 1 or after year 9999. *)
Definition datetime_add (t delta : Z) : result Z :=
  let sum := (t + delta)%Z in
  if ((datetime_min <=? sum) && (sum <=? datetime_max))%Z
  then Ok sum
  else Raise OverflowError.

(** [calculate_rollover_requirement]; the clock is read twice, by
    [pd.Timestamp.now()] in the schedule and by [datetime.now()] here.
    The notional column keeps its dtype through the copy, the sort and
    the selections; it is given alongside the analyzer.  The date columns
    are datetime64 columns, as the records have them. *)
Definition calculate_rollover_requirement (self : MaturityAnalyzer)
  (Notional_dtype : dtype) (timestamp_now datetime_now : Z) (years_ahead : Q)
  : result Rollover :=
  let schedule := get_maturity_schedule self timestamp_now in
  rbind (timedelta (years_ahead * (36525 # 100))%Q) (fun delta =>
  rbind (datetime_add datetime_now delta) (fun cutoff_date =>
  let maturing_soon := filter (matures_by cutoff_date) schedule in
  let sum := Series_sum Notional_dtype in
  rbind (num_div (sum (map entry_Notional maturing_soon))
                 (sum (map entry_Notional schedule))) (fun share =>
  Ok {| total_maturing := sum (map entry_Notional maturing_soon);
        number_of_bonds := List.length maturing_soon;
        years_analyzed := years_ahead;
        percentage_of_total := num_mul share (py 100) |}))).

(** *** Maturity wall *)

(** The calendar year of a day counted from 1970-01-01 (proleptic
    Gregorian calendar), as [Series.dt.year] gives it. *)
Definition year_of_days (days : Z) : Z :=
  let z := (days + 719468)%Z in
  let era := (z / 146097)%Z in
  let doe := (z - era * 146097)%Z in
  let yoe := ((doe - doe / 1460 + doe / 36524 - doe / 146096) / 365)%Z in
  let doy := (doe - (365 * yoe + yoe / 4 - yoe / 100))%Z in
  let mp := ((5 * doy + 2) / 153)%Z in
  let m := (if mp <? 10 then mp + 3 else mp - 9)%Z in
  (yoe + era * 400 + (if m <=? 2 then 1 else 0))%Z.

Definition entry_year (e : ScheduleEntry) : option Z :=
  option_map (fun t => year_of_days (t / day_us)) (entry_Maturity e).







(** *** Refinancing risk *)

Inductive refinancing_status : Type := Likely_Converts | Needs_Refinancing.

Record RefinancingRow : Type := mkRefinancing {
  ref_Name : string;
  ref_Maturity : option Z;
  ref_Notional : xval;
  ref_Status : refinancing_status;
  Cash_Requirement : xval;
  ref_Years_to_Maturity : xval
}.

(** [schedule.merge(right, on='Name', how='left')]: every schedule
    entry, in order, once for each row of [right] of the same name (in
    the order of [right]), or once with a missing value when there is
    none. *)
Definition merge_left_on_Name (schedule : list ScheduleEntry)
  (right : list (string * xval)) : list (ScheduleEntry * xval) :=
  flat_map (fun e =>
              match filter (fun kv => String.eqb (fst kv) (entry_Name e)) right with
              | [] => [(e, NaN)]
              | matches => map (fun kv => (e, snd kv)) matches
              end) schedule.

Definition assess_refinancing_risk (self : MaturityAnalyzer) (now : Z)
  (btc_price_at_maturity : num) : list RefinancingRow :=
  let schedule := get_maturity_schedule self now in
  let merged :=
    merge_left_on_Name schedule
      (map (fun r => (Name r, Conversion_Price r)) (debt_df self)) in
  map (fun '(e, conversion_price) =>
         let in_the_money :=
           negb (xis_nan conversion_price)
           && num_lt (py 50000) btc_price_at_maturity in
         let refinancing_needed := negb in_the_money in
         {| ref_Name := entry_Name e;
            ref_Maturity := entry_Maturity e;
            ref_Notional := entry_Notional e;
            ref_Status :=
              if in_the_money then Likely_Converts else Needs_Refinancing;
            Cash_Requirement :=
              if refinancing_needed then entry_Notional e else Fin 0;
            ref_Years_to_Maturity := Years_to_Maturity e |})
      merged.

End MaturityAnalysis.


(* ================================================================== *)
(** * Properties *)
(* ================================================================== *)

(** ** Numbers *)

Section NumberFacts.

Lemma Qis_zero_true (q : Q) : Qis_zero q = true <-> q == 0.
Proof.
  unfold Qis_zero, Qeq. simpl. rewrite Z.eqb_eq. lia.
Qed.

Lemma Qis_zero_false (q : Q) : Qis_zero q = false <-> ~ q == 0.
Proof.
  rewrite <- Qis_zero_true. destruct (Qis_zero q); intuition congruence.
Qed.

Lemma Qis_zero_mul (a b : Q) :
  Qis_zero (a * b) = Qis_zero a || Qis_zero b.
Proof.
  unfold Qis_zero. simpl.
  destruct (Z.eqb_spec (Qnum a) 0) as [Ha | Ha]; simpl.
  - rewrite Ha. reflexivity.
  - destruct (Z.eqb_spec (Qnum b) 0) as [Hb | Hb].
    + rewrite Hb, Z.mul_0_r. reflexivity.
    + apply Z.eqb_neq. nia.
Qed.

Lemma Qis_zero_pos (q : Q) : 0 < q -> Qis_zero q = false.
Proof.
  intro H. apply Qis_zero_false. intro E. rewrite E in H.
  exact (Qlt_irrefl 0 H).
Qed.

End NumberFacts.

(** ** The liquidation engine *)

Section LiquidationFacts.
Import Liquidation.
Local Open Scope py_scope.

(** The price a call works with: the override when it is given and not
    zero, else the stored price. *)
Definition effective_price (p : Q) (override : option Q) : Q :=
  match override with
  | Some o => if Qis_zero o then p else o
  | None => p
  end.

Lemma ltv_ratio_builtin (h p d i : Q) (override : option Q) :
  fst (calculate_ltv_ratio (option_map py override)
         (mkCalc (py h) (py p) (py d) (py i)))
  = if Qis_zero (h * effective_price p override)
    then Raise ZeroDivisionError
    else Ok (py (d / (h * effective_price p override))).
Proof.
  destruct override as [o | ]; simpl.
  - unfold calculate_ltv_ratio, calculate_btc_value, price_or_default,
      truthy, bind. simpl.
    destruct (Qis_zero o) eqn:Ho; simpl;
      unfold num_div; simpl;
      match goal with |- context [Qis_zero ?e] => destruct (Qis_zero e) end;
      reflexivity.
  - unfold calculate_ltv_ratio, calculate_btc_value, bind, num_div. simpl.
    destruct (Qis_zero (h * p)); reflexivity.
Qed.

Lemma liquidation_price_builtin (h p d i t : Q) :
  fst (calculate_liquidation_price (py t) (mkCalc (py h) (py p) (py d) (py i)))
  = if Qis_zero (h * t) then Raise ZeroDivisionError
    else Ok (py (d / (h * t))).
Proof.
  unfold calculate_liquidation_price, bind, num_div. simpl.
  destruct (Qis_zero (h * t)); reflexivity.
Qed.


(** C10: an override price equal to zero is falsy, so
    [calculate_btc_value], [calculate_ltv_ratio] and
    [calculate_collateral_coverage] called with it behave exactly as when
    called with no override (same result or same exception, same
    instance afterwards), and what they work with is the stored price:
    the value is [btc_holdings * self.btc_price], the LTV is
    [total_debt] divided by that value, the coverage is 1 divided by
    that LTV.  So the override of zero does not make the collateral zero
    and is not the divisor: when holdings and stored price are not zero,
    the value is not zero and the LTV is returned. *)
Theorem C10_zero_override_same_as_none
  (self : LiquidationCalculator) (zero : num)
  (Hzero : xis_zero (val zero) = true) :
  let stored_value := num_mul (btc_holdings self) (btc_price self) in
  let stored_ltv := num_div (total_debt self) stored_value in
  (calculate_btc_value (Some zero) self = calculate_btc_value None self
   /\ calculate_ltv_ratio (Some zero) self = calculate_ltv_ratio None self
   /\ calculate_collateral_coverage (Some zero) self
      = calculate_collateral_coverage None self)
  /\ calculate_btc_value (Some zero) self = (Ok stored_value, self)
  /\ calculate_ltv_ratio (Some zero) self = (stored_ltv, self)
  /\ calculate_collateral_coverage (Some zero) self
     = (rbind stored_ltv (fun ltv => num_div (py 1) ltv), self)
  /\ forall h p,
       val (btc_holdings self) = Fin h -> val (btc_price self) = Fin p ->
       ~ h == 0 -> ~ p == 0 ->
       (exists v, val stored_value = Fin v /\ ~ v == 0)
       /\ exists ltv, fst (calculate_ltv_ratio (Some zero) self) = Ok ltv.
Proof.
  intros stored_value stored_ltv.
  assert (Hv : calculate_btc_value (Some zero) self
               = calculate_btc_value None self).
  { unfold calculate_btc_value, price_or_default, truthy.
    rewrite Hzero. reflexivity. }
  assert (Hl : calculate_ltv_ratio (Some zero) self
               = calculate_ltv_ratio None self).
  { unfold calculate_ltv_ratio, bind. rewrite Hv. reflexivity. }
  assert (Hc : calculate_collateral_coverage (Some zero) self
               = calculate_collateral_coverage None self).
  { unfold calculate_collateral_coverage, bind. rewrite Hl. reflexivity. }
  assert (Hltv : calculate_ltv_ratio None self = (stored_ltv, self))
    by reflexivity.
  split; [ repeat split; assumption | ].
  split; [ rewrite Hv; reflexivity | ].
  split; [ rewrite Hl; exact Hltv | ].
  split.
  - rewrite Hc. unfold calculate_collateral_coverage, bind.
    rewrite Hltv. destruct stored_ltv; reflexivity.
  - intros h p Hh Hp Hh0 Hp0.
    assert (Hne : Qis_zero (h * p) = false).
    { rewrite Qis_zero_mul. apply Qis_zero_false in Hh0, Hp0.
      rewrite Hh0, Hp0. reflexivity. }
    split.
    + exists (h * p). subst stored_value. unfold num_mul. cbn [val].
      rewrite Hh, Hp. split; [ reflexivity | ].
      apply Qis_zero_false. exact Hne.
    + rewrite Hl, Hltv. cbn [fst]. subst stored_ltv stored_value.
      unfold num_div, num_mul. cbn [val np]. rewrite Hh, Hp.
      cbn [xmul xis_zero]. rewrite Hne.
      destruct (np (total_debt self) || (np (btc_holdings self) || np (btc_price self)));
        eexists; reflexivity.
Qed.

Lemma C10_zero_override_same_as_none_witness :
  let self := example_calc in
  let stored_value := num_mul (btc_holdings self) (btc_price self) in
  let stored_ltv := num_div (total_debt self) stored_value in
  (calculate_btc_value (Some (py 0)) self = calculate_btc_value None self
   /\ calculate_ltv_ratio (Some (py 0)) self = calculate_ltv_ratio None self
   /\ calculate_collateral_coverage (Some (py 0)) self
      = calculate_collateral_coverage None self)
  /\ calculate_btc_value (Some (py 0)) self = (Ok stored_value, self)
  /\ calculate_ltv_ratio (Some (py 0)) self = (stored_ltv, self)
  /\ calculate_collateral_coverage (Some (py 0)) self
     = (rbind stored_ltv (fun ltv => num_div (py 1) ltv), self)
  /\ forall h p,
       val (btc_holdings self) = Fin h -> val (btc_price self) = Fin p ->
       ~ h == 0 -> ~ p == 0 ->
       (exists v, val stored_value = Fin v /\ ~ v == 0)
       /\ exists ltv, fst (calculate_ltv_ratio (Some (py 0)) self) = Ok ltv.
Proof.
  apply (@C10_zero_override_same_as_none example_calc (py 0)).
  reflexivity.
Defined.

(** C2 fails on the code.  The calculator of the module's [__main__]
    block has a stored price of 100,000; asked for its LTV at an explicit
    price of 0 it raises nothing: the override is dropped as falsy and
    the call returns the LTV at the stored price, 0.1835, the very result
    of the call without an override.  The same holds whichever of the
    attributes and of the override are built-in numbers or
    [numpy.float64]. *)
Theorem C2_zero_override_returns_stored_ltv :
  btc_price example_calc = py 100000
  /\ fst (calculate_ltv_ratio (Some (py 0)) example_calc)
     = fst (calculate_ltv_ratio None example_calc)
  /\ (exists ltv,
        fst (calculate_ltv_ratio (Some (py 0)) example_calc) = Ok (py ltv)
        /\ ltv == 8214000000 / (447470 * 100000)
        /\ Qabs (ltv - (1835 # 10000)) <= 1 # 10000)
  /\ forall kh kp kd ki ko : bool,
       exists ltv,
         fst (calculate_ltv_ratio (Some (Num ko (Fin 0)))
                (mkCalc (Num kh (Fin 447470)) (Num kp (Fin 100000))
                        (Num kd (Fin 8214000000)) (Num ki (Fin 34580940))))
         = Ok ltv
         /\ xeq (val ltv) (Fin (8214000000 / (447470 * 100000))).
Proof.
  split; [ reflexivity | ].
  split; [ reflexivity | ].
  split.
  - eexists. split; [ vm_compute; reflexivity | ].
    split; [ reflexivity | vm_compute; discriminate ].
  - intros kh kp kd ki ko.
    destruct kh, kp, kd; (eexists; split; [ reflexivity | reflexivity ]).
Qed.

(** C5, as the code has it: [calculate_liquidation_price] checks nothing
    about [target_ltv].  On built-in numbers it returns
    [total_debt / (btc_holdings * target_ltv)] for every [target_ltv]
    other than zero, negative ones included, and raises
    [ZeroDivisionError] when [btc_holdings * target_ltv] is zero. *)
Theorem C5_liquidation_price_unchecked (h p d i t : Q) :
  fst (calculate_liquidation_price (py t) (mkCalc (py h) (py p) (py d) (py i)))
  = if Qis_zero h || Qis_zero t then Raise ZeroDivisionError
    else Ok (py (d / (h * t))).
Proof.
  rewrite liquidation_price_builtin, Qis_zero_mul. reflexivity.
Qed.

(** C5 as stated fails: a negative [target_ltv] is answered with a
    price, no exception is raised. *)
Lemma C5_negative_target_returns :
  ~ exists e, fst (calculate_liquidation_price (py (- (1 # 2))) example_calc)
              = Raise e.
Proof.
  intros [e H]. vm_compute in H. discriminate H.
Qed.

(** Dividing by a finite number other than zero never raises, whatever
    the families of the operands. *)
Lemma num_div_nonzero (ka kb : bool) (a b : Q) :
  Qis_zero b = false ->
  num_div (Num ka (Fin a)) (Num kb (Fin b)) = Ok (Num (ka || kb) (Fin (a / b))).
Proof.
  intro Hb. unfold num_div. simpl. rewrite Hb.
  destruct ka, kb; reflexivity.
Qed.

(** C7: for positive holdings and debt and [target_ltv] in (0, 1], the
    LTV at the price [calculate_liquidation_price target_ltv] returns is
    [target_ltv] again (exactly, on the rationals the floats denote),
    whether the attributes are built-in numbers or [numpy.float64]. *)
Theorem C7_ltv_at_liquidation_price (kh kp kd ki kt : bool) (h p d i t : Q)
  (Hh : 0 < h) (Hd : 0 < d) (Ht0 : 0 < t) (Ht1 : t <= 1) :
  let self :=
    mkCalc (Num kh (Fin h)) (Num kp (Fin p)) (Num kd (Fin d)) (Num ki (Fin i)) in
  exists liq ltv q,
    fst (calculate_liquidation_price (Num kt (Fin t)) self) = Ok liq
    /\ fst (calculate_ltv_ratio (Some liq) self) = Ok ltv
    /\ val ltv = Fin q
    /\ q == t.
Proof.
  intro self. subst self.
  assert (Hht : 0 < h * t) by (apply Qmult_lt_0_compat; assumption).
  assert (Hliq : 0 < d / (h * t)).
  { apply Qlt_shift_div_l; [ exact Hht | ]. rewrite Qmult_0_l. exact Hd. }
  assert (Hval : 0 < h * (d / (h * t))) by (apply Qmult_lt_0_compat; assumption).
  exists (Num (kd || (kh || kt)) (Fin (d / (h * t)))).
  exists (Num (kd || (kh || (kd || (kh || kt)))) (Fin (d / (h * (d / (h * t)))))).
  exists (d / (h * (d / (h * t)))).
  split; [ | split; [ | split ] ].
  - unfold calculate_liquidation_price, bind, getattr, lift, num_mul. simpl.
    apply num_div_nonzero. apply Qis_zero_pos. exact Hht.
  - unfold calculate_ltv_ratio, calculate_btc_value, price_or_default,
      truthy, bind, getattr, lift, ret, num_mul. simpl.
    rewrite (Qis_zero_pos Hliq). simpl.
    apply num_div_nonzero. apply Qis_zero_pos. exact Hval.
  - reflexivity.
  - field. repeat split; intro E.
    + rewrite E in Ht0. exact (Qlt_irrefl 0 Ht0).
    + rewrite E in Hh. exact (Qlt_irrefl 0 Hh).
    + rewrite E in Hd. exact (Qlt_irrefl 0 Hd).
Qed.

Lemma C7_ltv_at_liquidation_price_witness :
  exists liq ltv q,
    fst (calculate_liquidation_price (py (85 # 100))
           (mkCalc (py 447470) (py 100000) (npf (Fin 8214000000))
                   (npf (Fin 34580940))))
    = Ok liq
    /\ fst (calculate_ltv_ratio (Some liq)
              (mkCalc (py 447470) (py 100000) (npf (Fin 8214000000))
                      (npf (Fin 34580940))))
       = Ok ltv
    /\ val ltv = Fin q
    /\ q == 85 # 100.
Proof.
  apply (@C7_ltv_at_liquidation_price false false true true false
           447470 100000 8214000000 34580940 (85 # 100));
    reflexivity || (intro H; discriminate H).
Defined.

(** C3, as the code computes it: with holdings 447,470, price 100,000
    and debt 8,214 million the BTC value is 44,747,000,000, the LTV is
    0.1835 to within 0.0001, the liquidation price at 0.85 is 21,596 to the
    dollar and the price drop to it is 78.4 percent. *)
Theorem C3_example_scenario :
  total_debt example_calc = py 8214000000
  /\ fst (calculate_btc_value None example_calc) = Ok (py 44747000000)
  /\ (exists ltv,
        fst (calculate_ltv_ratio None example_calc) = Ok (py ltv)
        /\ Qabs (ltv - (1835 # 10000)) <= 1 # 10000)
  /\ (exists liq,
        fst (calculate_liquidation_price (py (85 # 100)) example_calc)
        = Ok (py liq)
        /\ liq == 8214000000 / (447470 * (85 # 100))
        /\ Qabs (liq - 21596) <= 1 # 2)
  /\ (exists m pct,
        fst (calculate_margin_of_safety (py (85 # 100)) example_calc) = Ok m
        /\ price_drop_percent m = py pct
        /\ Qabs (pct - (784 # 10)) <= 5 # 100).
Proof.
  split; [ reflexivity | ].
  split; [ reflexivity | ].
  split; [ | split ].
  - eexists. split; [ vm_compute; reflexivity | ].
    vm_compute. discriminate.
  - eexists. split; [ vm_compute; reflexivity | ].
    split; vm_compute; [ reflexivity | discriminate ].
  - eexists. eexists. split; [ vm_compute; reflexivity | ].
    split; [ reflexivity | ].
    vm_compute. discriminate.
Qed.

(** C3 as stated fails: the liquidation price at 0.85 is not within
    1,000 of 11,473, and the price drop is not within 5 points of 88.5. *)
Lemma C3_stated_figures_off :
  (~ exists liq,
       fst (calculate_liquidation_price (py (85 # 100)) example_calc)
       = Ok (py liq)
       /\ Qabs (liq - 11473) <= 1000)
  /\ (~ exists m pct,
       fst (calculate_margin_of_safety (py (85 # 100)) example_calc) = Ok m
       /\ price_drop_percent m = py pct
       /\ Qabs (pct - (885 # 10)) <= 5).
Proof.
  split.
  - intros [liq [H B]]. vm_compute in H. injection H as <-.
    vm_compute in B. apply B. reflexivity.
  - intros [m [pct [H [P B]]]]. vm_compute in H. injection H as <-.
    vm_compute in P. injection P as <-.
    vm_compute in B. apply B. reflexivity.
Qed.

End LiquidationFacts.

(** ** Effects on the calculator *)

Section Frame.
Import Liquidation Charts.
Local Open Scope py_scope.

(** A computation that leaves the instance as it found it, whether it
    returns or raises. *)
Definition preserves_self {A} (m : M A) : Prop :=
  forall self, snd (m self) = self.

Lemma preserves_ret {A} (a : A) : preserves_self (ret a).
Proof. intro self. reflexivity. Qed.

Lemma preserves_lift {A} (r : result A) : preserves_self (lift r).
Proof. intro self. reflexivity. Qed.

Lemma preserves_getattr f : preserves_self (getattr f).
Proof. intro self. reflexivity. Qed.

Lemma preserves_bind {A B} (m : M A) (k : A -> M B) :
  preserves_self m -> (forall a, preserves_self (k a)) ->
  preserves_self (bind m k).
Proof.
  intros Hm Hk self. unfold bind.
  specialize (Hm self). destruct (m self) as [[a | e] self']; simpl in *.
  - subst self'. apply Hk.
  - exact Hm.
Qed.

Lemma preserves_for_each {A B} (xs : list A) (body : A -> M B) :
  (forall x, preserves_self (body x)) -> preserves_self (for_each xs body).
Proof.
  intro Hbody. induction xs as [ | x xs IH]; simpl.
  - apply preserves_ret.
  - apply preserves_bind; [ apply Hbody | intro y ].
    apply preserves_bind; [ exact IH | intro ys; apply preserves_ret ].
Qed.

Create HintDb frame.
#[local] Hint Resolve preserves_ret preserves_lift preserves_getattr : frame.
#[local] Hint Extern 2 (preserves_self (bind _ _)) =>
  apply preserves_bind; [ | intro ] : frame.
#[local] Hint Extern 2 (preserves_self (for_each _ _)) =>
  apply preserves_for_each; intro : frame.

Lemma preserves_price_or_default o : preserves_self (price_or_default o).
Proof.
  destruct o as [p | ]; simpl; [ destruct (truthy p) | ]; auto with frame.
Qed.
#[local] Hint Resolve preserves_price_or_default : frame.

Lemma preserves_btc_value o : preserves_self (calculate_btc_value o).
Proof. unfold calculate_btc_value. auto 6 with frame. Qed.
#[local] Hint Resolve preserves_btc_value : frame.

Lemma preserves_ltv_ratio o : preserves_self (calculate_ltv_ratio o).
Proof. unfold calculate_ltv_ratio. auto 6 with frame. Qed.
#[local] Hint Resolve preserves_ltv_ratio : frame.

Lemma preserves_collateral_coverage o :
  preserves_self (calculate_collateral_coverage o).
Proof. unfold calculate_collateral_coverage. auto 6 with frame. Qed.
#[local] Hint Resolve preserves_collateral_coverage : frame.

Lemma preserves_liquidation_price t :
  preserves_self (calculate_liquidation_price t).
Proof. unfold calculate_liquidation_price. auto 6 with frame. Qed.
#[local] Hint Resolve preserves_liquidation_price : frame.

Lemma preserves_margin_of_safety t :
  preserves_self (calculate_margin_of_safety t).
Proof. unfold calculate_margin_of_safety. auto 10 with frame. Qed.

Lemma preserves_interest_coverage income :
  preserves_self (calculate_interest_coverage income).
Proof.
  unfold calculate_interest_coverage.
  apply preserves_bind; [ auto with frame | intro interest ].
  destruct (xis_zero (val interest)); auto with frame.
Qed.

Lemma preserves_stress_test : preserves_self stress_test_scenarios.
Proof.
  unfold stress_test_scenarios.
  apply preserves_bind; [ auto with frame | intro current ].
  apply preserves_for_each. intros [name price]. auto 12 with frame.
Qed.

(** What an assignment to [total_debt] cannot touch. *)
Definition same_but_debt (s s' : LiquidationCalculator) : Prop :=
  btc_holdings s' = btc_holdings s
  /\ btc_price s' = btc_price s
  /\ annual_interest s' = annual_interest s.

Definition keeps_rest {A} (m : M A) : Prop :=
  forall self, same_but_debt self (snd (m self)).

Lemma keeps_rest_of_preserves {A} (m : M A) : preserves_self m -> keeps_rest m.
Proof. intros H self. rewrite H. repeat split. Qed.

Lemma keeps_rest_set v : keeps_rest (set_total_debt v).
Proof. intro self. repeat split. Qed.

Lemma keeps_rest_bind {A B} (m : M A) (k : A -> M B) :
  keeps_rest m -> (forall a, keeps_rest (k a)) -> keeps_rest (bind m k).
Proof.
  intros Hm Hk self. unfold bind.
  specialize (Hm self). destruct (m self) as [[a | e] self']; simpl in *.
  - specialize (Hk a self'). unfold same_but_debt in *.
    intuition congruence.
  - exact Hm.
Qed.

Lemma keeps_rest_for_each {A B} (xs : list A) (body : A -> M B) :
  (forall x, keeps_rest (body x)) -> keeps_rest (for_each xs body).
Proof.
  intro Hbody. induction xs as [ | x xs IH]; simpl.
  - apply keeps_rest_of_preserves, preserves_ret.
  - apply keeps_rest_bind; [ apply Hbody | intro y ].
    apply keeps_rest_bind; [ exact IH | intro ys ].
    apply keeps_rest_of_preserves, preserves_ret.
Qed.

Lemma keeps_rest_sweep original mults prices :
  keeps_rest (heatmap_sweep original mults prices).
Proof.
  unfold heatmap_sweep.
  apply keeps_rest_for_each. intro m.
  apply keeps_rest_for_each. intro p.
  apply keeps_rest_bind; [ apply keeps_rest_set | intros _ ].
  apply keeps_rest_of_preserves. auto 6 with frame.
Qed.

(** A loop whose body always returns, returns. *)
Lemma for_each_returns {A B} (xs : list A) (body : A -> M B) :
  (forall x self, In x xs -> exists y, fst (body x self) = Ok y) ->
  forall self, exists ys, fst (for_each xs body self) = Ok ys.
Proof.
  induction xs as [ | x xs IH]; intros Hbody self; simpl.
  - exists []. reflexivity.
  - unfold bind at 1.
    destruct (Hbody x self (or_introl eq_refl)) as [y Hy].
    destruct (body x self) as [r self1]. simpl in Hy. subst r.
    unfold bind at 1.
    destruct (IH (fun x' s H => Hbody x' s (or_intror H)) self1) as [ys Hys].
    destruct (for_each xs body self1) as [r self2]. simpl in Hys. subst r.
    exists (y :: ys). reflexivity.
Qed.

(** With a [numpy.float64] multiplier the debt of a cell is a
    [numpy.float64], and the cell's division cannot raise. *)
Lemma sweep_returns original mults prices :
  Forall (fun m => np m = true) mults ->
  forall self, exists matrix,
    fst (heatmap_sweep original mults prices self) = Ok matrix.
Proof.
  intro Hnp. unfold heatmap_sweep.
  apply for_each_returns. intros m self Hm.
  rewrite Forall_forall in Hnp. specialize (Hnp m Hm).
  apply for_each_returns. intros p self' _.
  unfold bind, set_total_debt, calculate_ltv_ratio, calculate_btc_value,
    price_or_default, bind, getattr, lift, ret, num_div, num_mul.
  destruct (truthy p); simpl; rewrite Hnp, orb_true_r; simpl;
    eexists; reflexivity.
Qed.

Lemma np_linspace_np start stop n :
  Forall (fun m => np m = true) (np_linspace start stop n).
Proof.
  unfold np_linspace. apply Forall_app. split.
  - apply Forall_forall. intros m Hm.
    apply in_map_iff in Hm. destruct Hm as [k [<- _]]. reflexivity.
  - constructor; [ reflexivity | constructor ].
Qed.

Lemma preserves_heatmap price_range debt_range :
  preserves_self (create_ltv_heatmap price_range debt_range).
Proof.
  intro self. unfold create_ltv_heatmap, bind, lift, getattr.
  destruct (index price_range 0); [ | reflexivity ].
  destruct (index price_range 1); [ | reflexivity ].
  destruct (index debt_range 0) as [d0 | ]; [ | reflexivity ].
  destruct (index debt_range 1) as [d1 | ]; [ | reflexivity ].
  match goal with
  | |- context [heatmap_sweep ?o ?ms ?ps self] =>
      pose proof (keeps_rest_sweep o ms ps self) as Hrest;
      destruct (sweep_returns o ps (np_linspace_np d0 d1 15) self)
        as [matrix Hret];
      destruct (heatmap_sweep o ms ps self) as [r self']
  end.
  simpl in Hret. subst r. simpl.
  destruct Hrest as [Hh [Hp Hi]]. simpl in *.
  rewrite Hh, Hp, Hi. destruct self. reflexivity.
Qed.

(** The calculator with another debt: the state a cell of the grid
    would be given, were one built for it. *)
Definition with_debt (self : LiquidationCalculator) (debt : num)
  : LiquidationCalculator :=
  {| btc_holdings := btc_holdings self;
     btc_price := btc_price self;
     total_debt := debt;
     annual_interest := annual_interest self |}.

(** One cell of the grid, computed on a calculator of its own. *)
Definition independent_cell (self : LiquidationCalculator)
  (original debt_mult btc_price : num) : result num :=
  rbind (fst (calculate_ltv_ratio (Some btc_price)
                (with_debt self (num_mul original debt_mult))))
        (fun ltv => Ok (num_mul ltv (py 100))).

Lemma with_debt_same (self s : LiquidationCalculator) (debt : num) :
  same_but_debt self s -> with_debt s debt = with_debt self debt.
Proof.
  intros [Hh [Hp Hi]]. unfold with_debt. rewrite Hh, Hp, Hi. reflexivity.
Qed.

Lemma same_but_debt_with_debt (self : LiquidationCalculator) (debt : num) :
  same_but_debt self (with_debt self debt).
Proof. repeat split. Qed.

Lemma sweep_row_cellwise (self : LiquidationCalculator)
  (original debt_mult : num) (prices : list num) :
  forall s, same_but_debt self s ->
    fst (for_each prices (fun btc_price =>
           set_total_debt (num_mul original debt_mult) ;;;
           ltv <- calculate_ltv_ratio (Some btc_price) ;;
           ret (num_mul ltv (py 100))) s)
    = map_result (independent_cell self original debt_mult) prices.
Proof.
  induction prices as [ | p prices IH]; intros s Hs; simpl; [ reflexivity | ].
  unfold bind at 1. unfold bind at 1. unfold set_total_debt at 1.
  fold (with_debt s (num_mul original debt_mult)).
  rewrite (with_debt_same _ Hs).
  unfold independent_cell at 1. unfold bind at 1.
  pose proof (preserves_ltv_ratio (Some p)
                (with_debt self (num_mul original debt_mult))) as Hsame.
  destruct (calculate_ltv_ratio (Some p)
              (with_debt self (num_mul original debt_mult)))
    as [[ltv | e] s'] eqn:Hrun; simpl in *; [ | reflexivity ].
  subst s'. unfold ret at 1. unfold bind at 1.
  specialize (IH _ (same_but_debt_with_debt self (num_mul original debt_mult))).
  destruct (for_each prices _ (with_debt self (num_mul original debt_mult)))
    as [[row | e] s'']; simpl in *; rewrite <- IH; reflexivity.
Qed.

(** The matrix of the sweep is, cell for cell, what independent
    calculators would have computed: the assignments to the shared
    calculator do not leak from one cell into another. *)
Lemma sweep_cellwise (self : LiquidationCalculator)
  (original : num) (mults prices : list num) :
  fst (heatmap_sweep original mults prices self)
  = map_result (fun debt_mult =>
                  map_result (independent_cell self original debt_mult) prices)
               mults.
Proof.
  unfold heatmap_sweep.
  assert (Hgen : forall s, same_but_debt self s ->
            fst (for_each mults (fun debt_mult =>
                   for_each prices (fun btc_price =>
                     set_total_debt (num_mul original debt_mult) ;;;
                     ltv <- calculate_ltv_ratio (Some btc_price) ;;
                     ret (num_mul ltv (py 100)))) s)
            = map_result (fun debt_mult =>
                  map_result (independent_cell self original debt_mult) prices)
                mults).
  { induction mults as [ | m mults IH]; intros s Hs; simpl; [ reflexivity | ].
    unfold bind at 1.
    pose proof (sweep_row_cellwise original m prices Hs) as Hrow.
    pose proof (keeps_rest_sweep original [m] prices s) as Hrest.
    unfold heatmap_sweep in Hrest. simpl in Hrest.
    unfold bind at 1 in Hrest.
    destruct (for_each prices _ s) as [[row | e] s'] eqn:Hrun;
      simpl in *; rewrite <- Hrow; [ | reflexivity ].
    assert (Hs' : same_but_debt self s').
    { destruct Hs as [A [B C]], Hrest as [A' [B' C']].
      repeat split; congruence. }
    unfold bind at 1. specialize (IH s' Hs').
    destruct (for_each mults _ s') as [[rows | e] s'']; simpl in *;
      rewrite <- IH; reflexivity. }
  apply Hgen. repeat split.
Qed.

(** C8, as the code has it: every method of the calculator leaves the
    four attributes of the instance as they were, and so does
    [create_ltv_heatmap] once it is over -- although, unlike the methods,
    it does assign [total_debt] for each cell of the grid and restores the
    original value after the sweep. *)
Theorem C8_calculator_unchanged_after_calls :
  (forall o, preserves_self (calculate_btc_value o))
  /\ (forall o, preserves_self (calculate_ltv_ratio o))
  /\ (forall o, preserves_self (calculate_collateral_coverage o))
  /\ (forall t, preserves_self (calculate_liquidation_price t))
  /\ (forall t, preserves_self (calculate_margin_of_safety t))
  /\ (forall income, preserves_self (calculate_interest_coverage income))
  /\ preserves_self stress_test_scenarios
  /\ (forall price_range debt_range,
        preserves_self (create_ltv_heatmap price_range debt_range)).
Proof.
  repeat apply conj; intros.
  - apply preserves_btc_value.
  - apply preserves_ltv_ratio.
  - apply preserves_collateral_coverage.
  - apply preserves_liquidation_price.
  - apply preserves_margin_of_safety.
  - apply preserves_interest_coverage.
  - apply preserves_stress_test.
  - apply preserves_heatmap.
Qed.

(** C8 as stated fails: the sweep of the heat map works on the shared
    calculator.  Before the reset of line 35 the calculator it was handed
    carries twice the original debt. *)
Lemma C8_sweep_mutates_shared_calculator :
  ~ preserves_self
      (heatmap_sweep (total_debt example_calc)
         (np_linspace (py (1 # 2)) (py 2) 15)
         (np_linspace (py 20000) (py 200000) 20))
  /\ exists matrix mutated,
       heatmap_sweep (total_debt example_calc)
         (np_linspace (py (1 # 2)) (py 2) 15)
         (np_linspace (py 20000) (py 200000) 20) example_calc
       = (Ok matrix, mutated)
       /\ val (total_debt example_calc) = Fin 8214000000
       /\ xeq (val (total_debt mutated)) (Fin 16428000000).
Proof.
  split.
  - intro H. specialize (H example_calc).
    vm_compute in H. discriminate H.
  - eexists. eexists. split; [ vm_compute; reflexivity | ].
    split; reflexivity.
Qed.

End Frame.

(** ** The parser *)

Section ParserFacts.
Import DebtParser.
Local Open Scope string_scope.

(** The twelve header cells of the debt table, labelled by [aria-label]. *)
Definition debt_headers : list Th :=
  map (fun label => mkTh (Some label) "")
    ["Name"; "Issue Date"; "Maturity"; "Put Date"; "Earliest Call Date";
     "Price"; "Coupon"; "Notional ($M)"; "Market Val ($M)"; "BTC Par";
     "Ref Price"; "Conversion Price"].

Definition table_of (rows : list Tr) : option Table :=
  Some {| thead_tr := Some (Some debt_headers); tbody := Some rows |}.

(** A well-formed row, a row whose maturity is not in [m/d/Y] form, and
    a row whose price is not a number. *)
Definition good_row : Tr :=
  mkTr ["row"] ["2028 Convert"; "9/19/2024"; "9/15/2028"; "9/15/2027";
                "12/20/2027"; "$180.5"; "0.625%"; "$1,010"; "$1,823";
                "5,513"; "$183.19"; "—"].

Definition bad_date_row : Tr :=
  mkTr ["row"] ["2029 Convert"; "11/21/2024"; "2029-12-01"; "—";
                "—"; "$97.1"; "0%"; "$3,000"; "$2,913";
                "4,462"; "$430"; "$672.40"].

Definition bad_price_row : Tr :=
  mkTr ["row"] ["2029 Convert"; "11/21/2024"; "12/1/2029"; "—";
                "—"; "N/A"; "0%"; "$3,000"; "$2,913";
                "4,462"; "$430"; "$672.40"].




Lemma bad_date_recorded_as_absent :
  exists df,
    parse_debt_data (table_of [good_row; bad_date_row]) = Ok df
    /\ map (fun row => nth 2 row (CText None)) (data df)
       = [CDate (Some (mkDate 2028 9 15)); CDate None].
Proof.
  eexists. split; vm_compute; reflexivity.
Qed.

(** C4 fails on the code for currency and percentage cells: the
    [ValueError] of [float] is not caught by [parse_currency], so one
    price cell reading [N/A] in an otherwise well-formed table ends
    [parse_debt_data] with that exception. *)
Theorem C4_malformed_price_aborts_parse :
  parse_currency (Some "N/A") = Raise ValueError
  /\ parse_debt_data (table_of [good_row; bad_price_row]) = Raise ValueError
  /\ exists df, parse_debt_data (table_of [good_row]) = Ok df.
Proof.
  split; [ reflexivity | ].
  split; [ vm_compute; reflexivity | ].
  eexists. vm_compute. reflexivity.
Qed.

End ParserFacts.

(** ** The aggregator *)

Section AggregatorFacts.
Import DebtParser.

Definition present (v : xval) : bool := negb (xis_nan v).

(** A value that is a finite float or missing. *)
Definition finite_or_missing (v : xval) : Prop :=
  match v with
  | Fin _ | NaN => True
  | _ => False
  end.

Definition fin (v : xval) : Q :=
  match v with
  | Fin q => q
  | _ => 0
  end.

Definition Qsum (qs : list Q) : Q := fold_right Qplus 0 qs.

Definition both_present (r : BondRecord) : bool :=
  present (Coupon r) && present (Notional r).

(** Following the spec's words: numerator and denominator of the
    weighted average, each over the records where coupon and notional
    are both present. *)
Definition spec_numerator (df : list BondRecord) : Q :=
  Qsum (map (fun r => fin (Coupon r) * fin (Notional r)) (filter both_present df)).

Definition spec_denominator (df : list BondRecord) : Q :=
  Qsum (map (fun r => fin (Notional r)) (filter both_present df)).


#[local] Instance xeq_Equivalence : Equivalence xeq.
Proof.
  split.
  - intros [q | | | ]; simpl; auto. reflexivity.
  - intros [p | | | ] [q | | | ]; simpl; auto. intro H. symmetry. exact H.
  - intros [p | | | ] [q | | | ] [r | | | ]; simpl; auto; try tauto.
    intros H1 H2. rewrite H1. exact H2.
Qed.

Lemma Qnum_sgn_eq (p q : Q) : p == q -> Z.sgn (Qnum p) = Z.sgn (Qnum q).
Proof.
  unfold Qeq. destruct p as [a b], q as [c d]. simpl. intro H.
  assert (Hb : (0 < Z.pos b)%Z) by lia.
  assert (Hd : (0 < Z.pos d)%Z) by lia.
  destruct (Z.sgn_spec a) as [[Ha ->] | [[Ha ->] | [Ha ->]]];
    destruct (Z.sgn_spec c) as [[Hc ->] | [[Hc ->] | [Hc ->]]];
    try reflexivity; exfalso; nia.
Qed.

Lemma Qis_zero_eq (p q : Q) : p == q -> Qis_zero p = Qis_zero q.
Proof.
  intro H. destruct (Qis_zero q) eqn:Hq.
  - apply Qis_zero_true. rewrite H. apply Qis_zero_true. exact Hq.
  - apply Qis_zero_false. rewrite H. apply Qis_zero_false. exact Hq.
Qed.

Lemma xdiv_Fin_compat (a a' b b' : Q) :
  a == a' -> b == b' -> xeq (xdiv (Fin a) (Fin b)) (xdiv (Fin a') (Fin b')).
Proof.
  intros Ha Hb. simpl. rewrite (Qis_zero_eq Hb).
  destruct (Qis_zero b') eqn:Hz.
  - rewrite (Qnum_sgn_eq Ha). reflexivity.
  - simpl. rewrite Ha, Hb. reflexivity.
Qed.

(** [Series.sum()] over a column of finite or missing values adds up
    the values that are present. *)
Lemma nansum_fold (col : list xval) (a : Q) :
  Forall finite_or_missing col ->
  exists q,
    fold_left xadd (map (fun v => if xis_nan v then Fin 0 else v) col) (Fin a)
    = Fin q
    /\ q == a + Qsum (map fin (filter present col)).
Proof.
  intro Hcol. revert a.
  induction Hcol as [ | v col Hv _ IH]; intro a; simpl.
  - exists a. split; [ reflexivity | ring ].
  - destruct v as [p | | | ]; simpl in *; try contradiction.
    + destruct (IH (a + p)) as [q [Hq Eq]].
      exists q. split; [ exact Hq | ]. rewrite Eq. ring.
    + destruct (IH (a + 0)) as [q [Hq Eq]].
      exists q. split; [ exact Hq | ]. rewrite Eq. ring.
Qed.

Lemma nansum_finite (col : list xval) :
  Forall finite_or_missing col ->
  exists q,
    nansum col = npf (Fin q) /\ q == Qsum (map fin (filter present col)).
Proof.
  intro Hcol. destruct (nansum_fold 0 Hcol) as [q [Hq Eq]].
  exists q. unfold nansum. rewrite Hq. split; [ reflexivity | ].
  rewrite Eq. ring.
Qed.

Definition finite_row (r : BondRecord) : Prop :=
  finite_or_missing (Coupon r) /\ finite_or_missing (Notional r).

Lemma product_column_finite (df : list BondRecord) :
  Forall finite_row df ->
  Forall finite_or_missing (series_mul Coupon Notional df).
Proof.
  intro H. unfold series_mul. apply Forall_map.
  eapply Forall_impl; [ | exact H ].
  intros r [Hc Hn].
  destruct (Coupon r), (Notional r); simpl in *; tauto.
Qed.

Lemma product_column_sum (df : list BondRecord) :
  Forall finite_row df ->
  map fin (filter present (series_mul Coupon Notional df))
  = map (fun r => fin (Coupon r) * fin (Notional r)) (filter both_present df).
Proof.
  induction 1 as [ | r df [Hc Hn] _ IH]; simpl; [ reflexivity | ].
  unfold both_present at 1.
  destruct (Coupon r) eqn:Ec, (Notional r) eqn:En;
    simpl in *; try contradiction;
    rewrite ?Ec, ?En, IH; reflexivity.
Qed.

Lemma notional_column_sum (df : list BondRecord) :
  map fin (filter present (map Notional df))
  = map (fun r => fin (Notional r)) (filter (fun r => present (Notional r)) df).
Proof.
  induction df as [ | r df IH]; simpl; [ reflexivity | ].
  destruct (present (Notional r)); simpl; rewrite IH; reflexivity.
Qed.

(** A converted column is an object column exactly when none of its
    cells holds a number. *)
Lemma column_dtype_object (cells : list (option xval)) :
  column_dtype cells = object <-> Forall (fun c => c = None) cells.
Proof.
  unfold column_dtype.
  induction cells as [ | [x | ] cells IH]; cbn [existsb orb].
  - split; [ constructor | reflexivity ].
  - split; [ discriminate | ]. intro H. inversion H. discriminate.
  - rewrite IH. split.
    + intro H. constructor; [ reflexivity | exact H ].
    + intro H. inversion H. assumption.
Qed.

(** When every record that has a notional has a coupon too, the records
    with a notional are the records with both. *)
Lemma paired_records (df : list BondRecord) :
  Forall (fun r => present (Notional r) = true -> present (Coupon r) = true) df ->
  filter (fun r => present (Notional r)) df = filter both_present df.
Proof.
  intro Hpaired. apply filter_ext_in. intros r Hr.
  rewrite Forall_forall in Hpaired. specialize (Hpaired r Hr).
  unfold both_present. destruct (present (Notional r)).
  - rewrite (Hpaired eq_refl). reflexivity.
  - rewrite andb_false_r. reflexivity.
Qed.

(** C1, as the code has it by design.  Take a frame whose coupons and
    notionals are finite or missing and in which every record that has a
    notional has a coupon too.  When its notional column is a float64
    column, the metrics are returned and [weighted_avg_coupon] is the sum
    of coupon times notional divided by the sum of the notional, both
    over the records that have both; the division is the one of
    [numpy.float64], so that a denominator of zero raises nothing and
    gives [nan] or an infinity.  When its notional column is an object
    column, no record having a notional, that denominator is zero and
    the computation raises [ZeroDivisionError]. *)
Theorem C1_weighted_avg_coupon (Notional_dtype : dtype) (df : list BondRecord)
  (Hfinite : Forall finite_row df)
  (Hpaired : Forall (fun r => present (Notional r) = true ->
                              present (Coupon r) = true) df)
  (Hobject : Notional_dtype = object ->
             Forall (fun r => present (Notional r) = false) df) :
  match Notional_dtype with
  | float64 =>
      exists metrics,
        calculate_debt_metrics float64 df = Ok metrics
        /\ np (weighted_avg_coupon metrics) = true
        /\ xeq (val (weighted_avg_coupon metrics))
               (xdiv (Fin (spec_numerator df)) (Fin (spec_denominator df)))
        /\ (spec_denominator df == 0 ->
            forall q, val (weighted_avg_coupon metrics) <> Fin q)
  | object =>
      spec_denominator df == 0
      /\ calculate_debt_metrics object df = Raise ZeroDivisionError
  end.
Proof.
  destruct Notional_dtype.
  - destruct (nansum_finite (product_column_finite Hfinite)) as [n [Hn En]].
    assert (Hcol : Forall finite_or_missing (map Notional df)).
    { apply Forall_map. eapply Forall_impl; [ | exact Hfinite ].
      intros r [_ H]. exact H. }
    destruct (nansum_finite Hcol) as [d [Hd Ed]].
    rewrite (product_column_sum Hfinite) in En.
    rewrite notional_column_sum, (paired_records Hpaired) in Ed.
    fold (spec_numerator df) in En. fold (spec_denominator df) in Ed.
    unfold calculate_debt_metrics, Series_sum. rewrite Hn, Hd.
    unfold num_div at 1. cbn [np npf orb rbind val].
    eexists. split; [ reflexivity | ]. cbn [weighted_avg_coupon np val].
    split; [ reflexivity | ].
    assert (Hx : xeq (xdiv (Fin n) (Fin d))
                     (xdiv (Fin (spec_numerator df)) (Fin (spec_denominator df))))
      by (apply (xdiv_Fin_compat En Ed)).
    split; [ exact Hx | ].
    intros Hzero q Hq.
    assert (Hd0 : Qis_zero d = true).
    { apply Qis_zero_true. rewrite Ed. exact Hzero. }
    cbn [xdiv] in Hq. rewrite Hd0 in Hq.
    destruct (xsgn (Fin n)); discriminate Hq.
  - specialize (Hobject eq_refl). split; [ | reflexivity ].
    unfold spec_denominator.
    assert (Hnone : filter both_present df = []).
    { clear Hfinite Hpaired.
      induction Hobject as [ | r rows Hr _ IH]; cbn [filter]; [ reflexivity | ].
      unfold both_present at 1. rewrite Hr, andb_false_r. exact IH. }
    rewrite Hnone. reflexivity.
Qed.


Definition two_coupon_frame : list BondRecord :=
  [ mkBond "2029 Convert" (Some 0%Z) None (Fin 0) (Fin 3000) NaN (Fin 672);
    mkBond "2028 Convert" (Some 1%Z) None (Fin (5 # 8)) (Fin 1010) NaN (Fin 183) ].

Definition zero_notional_frame : list BondRecord :=
  [ mkBond "2027 Convert" (Some 0%Z) None (Fin 5) (Fin 0) NaN NaN ].

Definition no_notional_frame : list BondRecord :=
  [ mkBond "2027 Convert" (Some 0%Z) None (Fin 5) NaN NaN NaN ].

Lemma C1_weighted_avg_coupon_witness :
  (exists metrics,
     calculate_debt_metrics float64 two_coupon_frame = Ok metrics
     /\ np (weighted_avg_coupon metrics) = true
     /\ xeq (val (weighted_avg_coupon metrics))
            (xdiv (Fin (spec_numerator two_coupon_frame))
                  (Fin (spec_denominator two_coupon_frame)))
     /\ (spec_denominator two_coupon_frame == 0 ->
         forall q, val (weighted_avg_coupon metrics) <> Fin q))
  /\ (spec_denominator no_notional_frame == 0
      /\ calculate_debt_metrics object no_notional_frame
         = Raise ZeroDivisionError).
Proof.
  split.
  - apply (@C1_weighted_avg_coupon float64 two_coupon_frame).
    + repeat constructor.
    + repeat constructor.
    + discriminate.
  - apply (@C1_weighted_avg_coupon object no_notional_frame).
    + repeat constructor.
    + repeat constructor.
    + intros _. repeat constructor.
Defined.

(** C1 as stated fails: a zero denominator does not always raise.  A
    single record of notional 0 makes a float64 column (a cell of it
    holds a number); the sum of the notional over the records that have
    coupon and notional is 0, and the computation returns [nan] instead
    of failing. *)
Lemma C1_zero_denominator_returns_nan :
  column_dtype (map (fun r => Some (Notional r)) zero_notional_frame) = float64
  /\ Forall (fun r => both_present r = true) zero_notional_frame
  /\ spec_denominator zero_notional_frame == 0
  /\ exists metrics,
       calculate_debt_metrics float64 zero_notional_frame = Ok metrics
       /\ weighted_avg_coupon metrics = npf NaN.
Proof.
  split; [ reflexivity | ].
  split; [ repeat constructor | ].
  split; [ reflexivity | ].
  eexists. split; vm_compute; reflexivity.
Qed.

End AggregatorFacts.

(** ** The maturity analyzer *)

Section MaturityFacts.
Import DebtParser MaturityAnalysis.

Definition maturity_le (a b : option Z) : Prop := maturity_leb a b = true.

Lemma maturity_leb_total (a b : option Z) :
  maturity_leb a b = false -> maturity_leb b a = true.
Proof.
  destruct a as [s | ], b as [t | ]; simpl; try discriminate; try reflexivity.
  intro H. apply Z.leb_gt in H. apply Z.leb_le. lia.
Qed.

Lemma maturity_leb_trans (a b c : option Z) :
  maturity_leb a b = true -> maturity_leb b c = true -> maturity_leb a c = true.
Proof.
  destruct a as [s | ], b as [t | ], c as [u | ]; simpl;
    try discriminate; try reflexivity.
  rewrite !Z.leb_le. lia.
Qed.

Lemma insert_sorted_perm (r : BondRecord) (rows : list BondRecord) :
  Permutation (r :: rows) (insert_sorted r rows).
Proof.
  induction rows as [ | r' rows IH]; simpl.
  - apply Permutation_refl.
  - destruct (maturity_leb (Maturity r) (Maturity r')).
    + apply Permutation_refl.
    + apply perm_trans with (r' :: r :: rows).
      * apply perm_swap.
      * apply perm_skip. exact IH.
Qed.

Lemma sort_values_perm (df : list BondRecord) :
  Permutation df (sort_values_Maturity df).
Proof.
  induction df as [ | r df IH]; simpl.
  - apply perm_nil.
  - apply perm_trans with (r :: sort_values_Maturity df).
    + apply perm_skip. exact IH.
    + apply insert_sorted_perm.
Qed.

Definition by_maturity (rows : list BondRecord) : Prop :=
  StronglySorted maturity_le (map Maturity rows).

Lemma insert_sorted_by_maturity (r : BondRecord) (rows : list BondRecord) :
  by_maturity rows -> by_maturity (insert_sorted r rows).
Proof.
  unfold by_maturity.
  induction rows as [ | r' rows IH]; simpl; intro Hs.
  - constructor; constructor.
  - destruct (maturity_leb (Maturity r) (Maturity r')) eqn:Hle; simpl.
    + constructor; [ exact Hs | ].
      constructor; [ exact Hle | ].
      apply StronglySorted_inv in Hs. destruct Hs as [_ Hall].
      eapply Forall_impl; [ | exact Hall ].
      intros m Hm. eapply maturity_leb_trans; eassumption.
    + apply StronglySorted_inv in Hs. destruct Hs as [Hs Hall].
      constructor; [ apply IH; exact Hs | ].
      apply maturity_leb_total in Hle.
      assert (Hin : Forall (maturity_le (Maturity r'))
                      (map Maturity (r :: rows))).
      { constructor; assumption. }
      rewrite Forall_forall in Hin |- *.
      intros m Hm. apply Hin.
      apply in_map_iff in Hm. destruct Hm as [x [<- Hx]].
      apply in_map.
      apply (Permutation_in x (Permutation_sym (insert_sorted_perm r rows))).
      exact Hx.
Qed.

Lemma sort_values_by_maturity (df : list BondRecord) :
  by_maturity (sort_values_Maturity df).
Proof.
  induction df as [ | r df IH]; simpl.
  - constructor.
  - apply insert_sorted_by_maturity. exact IH.
Qed.

(** A list of dates in the order of [sort_values] is a run of ascending
    dates followed by nothing but NaT. *)
Lemma dated_then_undated (ms : list (option Z)) :
  StronglySorted maturity_le ms ->
  exists dated undated,
    ms = map Some dated ++ repeat None undated
    /\ StronglySorted Z.le dated.
Proof.
  induction 1 as [ | m ms _ [dated [undated [-> Hd]]] Hall].
  - exists [], 0%nat. split; [ reflexivity | constructor ].
  - destruct m as [t | ].
    + exists (t :: dated), undated. split; [ reflexivity | ].
      constructor; [ exact Hd | ].
      apply Forall_app in Hall. destruct Hall as [Hall _].
      rewrite Forall_forall in Hall |- *.
      intros u Hu. specialize (Hall (Some u) (in_map Some _ _ Hu)).
      apply Z.leb_le. exact Hall.
    + destruct dated as [ | u dated].
      * exists [], (S undated). split; [ reflexivity | constructor ].
      * inversion Hall as [ | ? ? Hu _]. discriminate Hu.
Qed.

Definition entry_key (e : ScheduleEntry) : string * option Z * xval :=
  (entry_Name e, entry_Maturity e, entry_Notional e).

Definition record_key (r : BondRecord) : string * option Z * xval :=
  (Name r, Maturity r, Notional r).

(** C6, as the code has it: the schedule has one entry for every record
    of the portfolio, the records without a maturity date included; the
    entries that have a date come first, in ascending order of that
    date, and those without one come last. *)
Theorem C6_schedule_sorted_undated_last (df : list BondRecord) (now : Z) :
  let schedule := get_maturity_schedule (MaturityAnalysis.__init__ df) now in
  Permutation (map record_key df) (map entry_key schedule)
  /\ exists dated undated,
       map entry_Maturity schedule = map Some dated ++ repeat None undated
       /\ StronglySorted Z.le dated.
Proof.
  intro schedule. subst schedule.
  unfold get_maturity_schedule, MaturityAnalysis.__init__. simpl.
  rewrite !map_map. simpl. split.
  - change (fun x : BondRecord => entry_key _) with record_key.
    apply Permutation_map. apply sort_values_perm.
  - apply dated_then_undated.
    change (fun x : BondRecord => Maturity x) with Maturity.
    apply sort_values_by_maturity.
Qed.

Definition undated_frame : list BondRecord :=
  [ mkBond "2031 Convert" None None (Fin 0) (Fin 604) NaN NaN;
    mkBond "2028 Convert" (Some (20000 * day_us)%Z) None (Fin (5 # 8))
           (Fin 1010) NaN NaN ].

(** C6 as stated fails: a record without a maturity date is not left
    out, it is the last entry of the schedule. *)
Lemma C6_undated_record_is_scheduled :
  ~ (forall r, In r undated_frame -> Maturity r = None ->
       ~ In (Name r)
            (map entry_Name
               (get_maturity_schedule (MaturityAnalysis.__init__ undated_frame) 0))).
Proof.
  intro H.
  apply (H (mkBond "2031 Convert" None None (Fin 0) (Fin 604) NaN NaN)).
  - left. reflexivity.
  - reflexivity.
  - vm_compute. right. left. reflexivity.
Qed.


(** *** The rollover window *)

Lemma round_half_even_bounds (q : Q) :
  (Qfloor q <= round_half_even q <= Qfloor q + 1)%Z.
Proof.
  unfold round_half_even.
  destruct (q - inject_Z (Qfloor q) ?= 1 # 2); [ destruct (Z.even _) | | ]; lia.
Qed.

Lemma round_half_even_mono (p q : Q) :
  p <= q -> (round_half_even p <= round_half_even q)%Z.
Proof.
  intro Hpq.
  pose proof (Qfloor_resp_le _ _ Hpq) as Hfl.
  destruct (Z.eq_dec (Qfloor p) (Qfloor q)) as [Heq | Hne].
  - unfold round_half_even. rewrite <- Heq.
    generalize (Qfloor p). intro f.
    generalize (inject_Z f). intro z.
    destruct (Qcompare_spec (p - z) (1 # 2)) as [Hp | Hp | Hp];
      destruct (Qcompare_spec (q - z) (1 # 2)) as [Hq | Hq | Hq];
      try (destruct (Z.even f)); try lia; exfalso; lra.
  - pose proof (round_half_even_bounds p).
    pose proof (round_half_even_bounds q).
    lia.
Qed.












(** Three bonds, maturing 400 days and 2,000 days after 1970-01-01 and
    without a date; and a bond without a notional. *)
Definition rollover_frame : list BondRecord :=
  [ mkBond "2030 Convert" (Some (2000 * day_us)%Z) (Some (1500 * day_us)%Z)
           (Fin 0) (Fin 800) NaN NaN;
    mkBond "2027 Convert" (Some (400 * day_us)%Z) None (Fin 0) (Fin 1050) NaN NaN;
    mkBond "2031 Convert" None None (Fin 0) NaN NaN NaN ].




End MaturityFacts.

(* ================================================================== *)
(** * Further properties of the liquidation engine *)
(* ================================================================== *)

Section LiquidationMore.
Import Liquidation Charts.
Local Open Scope py_scope.

(** The price a call works with, as a number of either family. *)
Definition effective_num (stored : num) (override : option num) : num :=
  match override with
  | Some o => if truthy o then o else stored
  | None => stored
  end.

Lemma btc_value_run (self : LiquidationCalculator) (override : option num) :
  calculate_btc_value override self
  = (Ok (num_mul (btc_holdings self) (effective_num (btc_price self) override)),
     self).
Proof.
  destruct override as [o | ]; unfold calculate_btc_value, price_or_default;
    simpl; [ destruct (truthy o) | ]; reflexivity.
Qed.

Lemma ltv_ratio_run (self : LiquidationCalculator) (override : option num) :
  calculate_ltv_ratio override self
  = (num_div (total_debt self)
       (num_mul (btc_holdings self) (effective_num (btc_price self) override)),
     self).
Proof.
  unfold calculate_ltv_ratio, bind. rewrite btc_value_run. reflexivity.
Qed.

Lemma collateral_coverage_run (self : LiquidationCalculator) (override : option num) :
  fst (calculate_collateral_coverage override self)
  = rbind (fst (calculate_ltv_ratio override self)) (num_div (py 1)).
Proof.
  unfold calculate_collateral_coverage, bind. rewrite ltv_ratio_run. simpl.
  destruct (num_div _ _); reflexivity.
Qed.

Lemma Qnonzero_mul (a b : Q) : ~ a == 0 -> ~ b == 0 -> ~ a * b == 0.
Proof.
  intros Ha Hb H. apply Qis_zero_true in H. rewrite Qis_zero_mul in H.
  apply orb_true_iff in H. destruct H as [H | H]; apply Qis_zero_true in H; tauto.
Qed.

(** X2: on built-in numbers a calculator without debt has LTV 0, and
    asking for its collateral coverage raises [ZeroDivisionError]. *)
Theorem X2_coverage_of_debt_free_calculator (h p i : Q) (override : option Q)
  (Hh : ~ h == 0) (Hp : ~ effective_price p override == 0) :
  let self := mkCalc (py h) (py p) (py 0) (py i) in
  (exists l, fst (calculate_ltv_ratio (option_map py override) self) = Ok (py l)
             /\ l == 0)
  /\ fst (calculate_collateral_coverage (option_map py override) self)
     = Raise ZeroDivisionError.
Proof.
  intro self. subst self.
  assert (Hden : Qis_zero (h * effective_price p override) = false).
  { apply Qis_zero_false. apply Qnonzero_mul; assumption. }
  rewrite collateral_coverage_run, ltv_ratio_builtin, Hden. split.
  - eexists. split; [ reflexivity | ].
    field. repeat split; assumption.
  - assert (Hz : Qis_zero (0 / (h * effective_price p override)) = true).
    { apply Qis_zero_true. field. repeat split; assumption. }
    unfold rbind, num_div, py. cbn [np val orb xis_zero].
    rewrite Hz. reflexivity.
Qed.

Lemma X2_coverage_of_debt_free_calculator_witness :
  (exists l, fst (calculate_ltv_ratio None (mkCalc (py 10) (py 100) (py 0) (py 0)))
             = Ok (py l) /\ l == 0)
  /\ fst (calculate_collateral_coverage None (mkCalc (py 10) (py 100) (py 0) (py 0)))
     = Raise ZeroDivisionError.
Proof.
  apply (@X2_coverage_of_debt_free_calculator 10 100 0 None);
    intro H; discriminate H.
Defined.

(** X3: for positive holdings and debt the LTV is strictly decreasing in
    the price: a higher positive override price gives a lower LTV. *)
Theorem X3_ltv_decreasing_in_price
  (kh kp kd k1 k2 : bool) (h p d : Q) (i : num) (p1 p2 : Q)
  (Hh : 0 < h) (Hd : 0 < d) (Hp1 : 0 < p1) (Hlt : p1 < p2) :
  let self := mkCalc (Num kh (Fin h)) (Num kp (Fin p)) (Num kd (Fin d)) i in
  exists ltv1 ltv2 l1 l2,
    fst (calculate_ltv_ratio (Some (Num k1 (Fin p1))) self) = Ok ltv1
    /\ fst (calculate_ltv_ratio (Some (Num k2 (Fin p2))) self) = Ok ltv2
    /\ val ltv1 = Fin l1 /\ val ltv2 = Fin l2
    /\ l2 < l1.
Proof.
  intro self. subst self.
  assert (Hp2 : 0 < p2) by lra.
  assert (H1 : 0 < h * p1) by (apply Qmult_lt_0_compat; assumption).
  assert (H2 : 0 < h * p2) by (apply Qmult_lt_0_compat; assumption).
  rewrite !ltv_ratio_run. simpl. unfold truthy. simpl.
  rewrite (Qis_zero_pos Hp1), (Qis_zero_pos Hp2). simpl.
  unfold num_mul. simpl.
  rewrite !num_div_nonzero by (apply Qis_zero_pos; assumption).
  do 4 eexists. repeat split; try reflexivity.
  apply Qlt_shift_div_l; [ exact H1 | ].
  setoid_replace (d / (h * p2) * (h * p1)) with (d * (p1 / p2))
    by (field; split; intro E; [ rewrite E in Hp2 | rewrite E in Hh ];
        eapply Qlt_irrefl; eassumption).
  assert (Hr : p1 / p2 < 1).
  { apply Qlt_shift_div_r; [ exact Hp2 | lra ]. }
  nra.
Qed.

Lemma X3_ltv_decreasing_in_price_witness :
  exists ltv1 ltv2 l1 l2,
    fst (calculate_ltv_ratio (Some (py 50000)) example_calc) = Ok ltv1
    /\ fst (calculate_ltv_ratio (Some (py 80000)) example_calc) = Ok ltv2
    /\ val ltv1 = Fin l1 /\ val ltv2 = Fin l2
    /\ l2 < l1.
Proof.
  apply (@X3_ltv_decreasing_in_price false false false false false
           447470 100000 (8214 * 1000000) (annual_interest example_calc)
           50000 80000); reflexivity.
Defined.


Lemma liquidation_price_run (self : LiquidationCalculator) (target_ltv : num) :
  calculate_liquidation_price target_ltv self
  = (num_div (total_debt self) (num_mul (btc_holdings self) target_ltv), self).
Proof. reflexivity. Qed.

Lemma margin_of_safety_run (self : LiquidationCalculator) (target_ltv : num) :
  fst (calculate_margin_of_safety target_ltv self)
  = rbind (num_div (total_debt self) (num_mul (btc_holdings self) target_ltv))
      (fun liq =>
       rbind (num_div (num_sub (btc_price self) liq) (btc_price self))
         (fun ratio =>
          rbind (num_div (total_debt self)
                   (num_mul (btc_holdings self) (btc_price self)))
            (fun ltv =>
             Ok {| current_price := btc_price self;
                   liquidation_price := liq;
                   price_drop_dollars := num_sub (btc_price self) liq;
                   price_drop_percent := num_mul ratio (py 100);
                   current_ltv := ltv;
                   target_ltv_used := target_ltv |}))).
Proof.
  unfold calculate_margin_of_safety, bind. rewrite liquidation_price_run.
  destruct (num_div (total_debt self) (num_mul (btc_holdings self) target_ltv))
    as [liq | e]; [ | reflexivity ].
  cbn [getattr lift rbind].
  destruct (num_div (num_sub (btc_price self) liq) (btc_price self))
    as [ratio | e]; [ | reflexivity ].
  rewrite ltv_ratio_run. cbn [effective_num rbind].
  destruct (num_div (total_debt self)
              (num_mul (btc_holdings self) (btc_price self)));
    reflexivity.
Qed.

(** X4: on built-in numbers, for positive holdings, price, debt and
    target, the margin of safety is returned and its liquidation price
    is positive.  The price drop is negative when the current LTV is
    above the target and positive when it is below; the percentage has
    the sign of the drop, and it stays below 100. *)
Theorem X4_margin_sign_follows_ltv (h p d i t : Q)
  (Hh : 0 < h) (Hp : 0 < p) (Hd : 0 < d) (Ht : 0 < t) :
  let self := mkCalc (py h) (py p) (py d) (py i) in
  exists m liq drop pct ltv,
    fst (calculate_margin_of_safety (py t) self) = Ok m
    /\ liquidation_price m = py liq
    /\ price_drop_dollars m = py drop
    /\ price_drop_percent m = py pct
    /\ current_ltv m = py ltv
    /\ 0 < liq
    /\ (t < ltv -> drop < 0)
    /\ (ltv < t -> 0 < drop)
    /\ (pct < 0 <-> drop < 0)
    /\ pct < 100.
Proof.
  intro self. subst self.
  assert (Hht : 0 < h * t) by (apply Qmult_lt_0_compat; assumption).
  assert (Hhp : 0 < h * p) by (apply Qmult_lt_0_compat; assumption).
  rewrite margin_of_safety_run.
  cbn [btc_holdings btc_price total_debt].
  unfold num_mul, num_sub, py. cbn [np val orb xmul xsub xadd xneg].
  rewrite (@num_div_nonzero false false d _ (Qis_zero_pos Hht)).
  cbn [np val orb xmul xsub xadd xneg rbind].
  rewrite (@num_div_nonzero false false _ _ (Qis_zero_pos Hp)).
  cbn [np val orb xmul xsub xadd xneg rbind].
  rewrite (@num_div_nonzero false false d _ (Qis_zero_pos Hhp)).
  cbn [np val orb xmul xsub xadd xneg rbind].
  do 5 eexists.
  split; [ reflexivity | ].
  cbn [liquidation_price price_drop_dollars price_drop_percent current_ltv].
  split; [ reflexivity | ].
  split; [ reflexivity | ]. split; [ reflexivity | ]. split; [ reflexivity | ].
  set (liq := d / (h * t)).
  set (ltv := d / (h * p)).
  assert (Eliq : liq * (h * t) == d).
  { unfold liq. field. repeat split; intro E; lra. }
  assert (Eltv : ltv * (h * p) == d).
  { unfold ltv. field. repeat split; intro E; lra. }
  assert (Hliq : 0 < liq).
  { unfold liq. apply Qlt_shift_div_l; [ exact Hht | lra ]. }
  set (ratio := (p + - liq) / p).
  assert (Eratio : ratio * p == p + - liq).
  { unfold ratio. field. repeat split; intro E; lra. }
  repeat split; try intro H; nra.
Qed.

Lemma X4_margin_sign_follows_ltv_witness :
  exists m liq drop pct ltv,
    fst (calculate_margin_of_safety (py (1 # 10))
           (mkCalc (py 447470) (py 100000) (py 8214000000) (py 0))) = Ok m
    /\ liquidation_price m = py liq
    /\ price_drop_dollars m = py drop
    /\ price_drop_percent m = py pct
    /\ current_ltv m = py ltv
    /\ 0 < liq
    /\ ((1 # 10) < ltv -> drop < 0)
    /\ (ltv < (1 # 10) -> 0 < drop)
    /\ (pct < 0 <-> drop < 0)
    /\ pct < 100.
Proof.
  apply (@X4_margin_sign_follows_ltv 447470 100000 8214000000 0 (1 # 10));
    reflexivity.
Defined.

(** The rows of a loop that returned: as many as there were items. *)
Lemma for_each_length {A B} (xs : list A) (body : A -> M B) :
  forall self ys, fst (for_each xs body self) = Ok ys ->
                  List.length ys = List.length xs.
Proof.
  induction xs as [ | x xs IH]; intros self ys; simpl.
  - intro H. injection H as <-. reflexivity.
  - unfold bind at 1. destruct (body x self) as [[y | e] s1]; [ | discriminate ].
    unfold bind at 1.
    specialize (IH s1).
    destruct (for_each xs body s1) as [[ys' | e] s2]; [ | discriminate ].
    simpl. intro H. injection H as <-. simpl. f_equal. apply IH. reflexivity.
Qed.

Lemma effective_num_self (stored : num) :
  effective_num stored (Some stored) = stored.
Proof. unfold effective_num. destruct (truthy stored); reflexivity. Qed.

Lemma collateral_coverage_pair (self : LiquidationCalculator) (override : option num) :
  calculate_collateral_coverage override self
  = (rbind (num_div (total_debt self)
              (num_mul (btc_holdings self)
                 (effective_num (btc_price self) override)))
           (num_div (py 1)),
     self).
Proof.
  unfold calculate_collateral_coverage, bind. rewrite ltv_ratio_run.
  destruct (num_div _ _); reflexivity.
Qed.

Lemma for_each_cons_returns {A B} (x : A) (xs : list A) (body : A -> M B)
  (self : LiquidationCalculator) (rows : list B) :
  fst (for_each (x :: xs) body self) = Ok rows ->
  exists y s1 ys,
    body x self = (Ok y, s1)
    /\ fst (for_each xs body s1) = Ok ys
    /\ rows = y :: ys.
Proof.
  cbn [for_each]. unfold bind at 1.
  destruct (body x self) as [[y | e] s1] eqn:Hy; [ | discriminate ].
  unfold bind at 1.
  destruct (for_each xs body s1) as [[ys | e] s2] eqn:Hys; [ | discriminate ].
  cbn [ret fst]. intro H. injection H as <-.
  exists y, s1, ys. rewrite Hys. repeat split; reflexivity.
Qed.

(** X6: when the stress test returns, it returns seven rows, and the
    first, [Current], carries the stored price and exactly the LTV and
    the coverage that [calculate_ltv_ratio()] and
    [calculate_collateral_coverage()] return for the calculator. *)
Theorem X6_stress_test_current_row
  (self : LiquidationCalculator) (rows : list ScenarioRow)
  (Hrun : fst (stress_test_scenarios self) = Ok rows) :
  List.length rows = 7%nat
  /\ exists row rest,
       rows = row :: rest
       /\ Scenario row = "Current"%string
       /\ BTC_Price row = btc_price self
       /\ fst (calculate_ltv_ratio None self) = Ok (LTV_Ratio row)
       /\ fst (calculate_collateral_coverage None self)
          = Ok (Collateral_Coverage row)
       /\ Status row = _get_status (LTV_Ratio row).
Proof.
  unfold stress_test_scenarios, bind in Hrun. cbn [getattr fst snd] in Hrun.
  split; [ exact (for_each_length _ _ _ Hrun) | ].
  apply for_each_cons_returns in Hrun.
  destruct Hrun as [row [s1 [rest [Hrow [_ ->]]]]].
  exists row, rest. split; [ reflexivity | ].
  rewrite collateral_coverage_pair, ltv_ratio_run. cbn [fst effective_num].
  unfold bind in Hrow.
  rewrite ltv_ratio_run, effective_num_self in Hrow.
  destruct (num_div (total_debt self)
              (num_mul (btc_holdings self) (btc_price self)))
    as [ltv | e] eqn:Hltv; [ | discriminate Hrow ].
  cbn [lift] in Hrow.
  rewrite collateral_coverage_pair, effective_num_self, Hltv in Hrow.
  cbn [rbind] in *.
  destruct (num_div (py 1) ltv) as [cov | e]; [ | discriminate Hrow ].
  rewrite btc_value_run in Hrow. cbn [lift] in Hrow.
  destruct (num_div _ (py 1000000)) as [value_m | e]; [ | discriminate Hrow ].
  cbn [ret] in Hrow. injection Hrow as <- _.
  repeat split; reflexivity.
Qed.

Lemma X6_stress_test_current_row_witness :
  exists rows,
    fst (stress_test_scenarios example_calc) = Ok rows
    /\ List.length rows = 7%nat
    /\ exists row rest,
         rows = row :: rest
         /\ Scenario row = "Current"%string
         /\ BTC_Price row = btc_price example_calc
         /\ fst (calculate_ltv_ratio None example_calc) = Ok (LTV_Ratio row)
         /\ fst (calculate_collateral_coverage None example_calc)
            = Ok (Collateral_Coverage row)
         /\ Status row = _get_status (LTV_Ratio row).
Proof.
  eexists. split; [ vm_compute; reflexivity | ].
  apply (@X6_stress_test_current_row example_calc).
  vm_compute. reflexivity.
Defined.


(** *** Risk bands *)

(** How bad a band is. *)
Definition severity (s : status) : nat :=
  match s with
  | Safe => 0
  | Caution => 1
  | Warning => 2
  | Danger => 3
  end.

Lemma xlt_Fin_true (p c : Q) : p < c -> xlt (Fin p) (Fin c) = true.
Proof.
  intro H. simpl. destruct (Qle_bool c p) eqn:E; [ | reflexivity ].
  apply Qle_bool_iff in E. lra.
Qed.

Lemma xlt_Fin_false (p c : Q) : c <= p -> xlt (Fin p) (Fin c) = false.
Proof.
  intro H. simpl. apply Qle_bool_iff in H. rewrite H. reflexivity.
Qed.

Lemma get_status_monotone (a b : num) :
  xle (val a) (val b) ->
  (severity (_get_status a) <= severity (_get_status b))%nat.
Proof.
  unfold _get_status, num_lt. cbn [val py].
  destruct (val a) as [p | | | ], (val b) as [q | | | ];
    cbn [xle]; try contradiction; intro Hle;
    try (cbn [xlt negb]; repeat match goal with
           | |- context [if ?c then _ else _] => destruct c
           end; cbn [severity]; lia).
  destruct (Qlt_le_dec p (50 # 100)) as [P1 | P1];
    [ rewrite (xlt_Fin_true P1) | rewrite (xlt_Fin_false P1) ];
    cbn [severity]; [ lia | ].
  destruct (Qlt_le_dec q (50 # 100)) as [Q1 | Q1]; [ lra | ].
  rewrite (xlt_Fin_false Q1).
  destruct (Qlt_le_dec p (65 # 100)) as [P2 | P2];
    [ rewrite (xlt_Fin_true P2) | rewrite (xlt_Fin_false P2) ].
  { repeat match goal with
           | |- context [if ?c then _ else _] => destruct c
           end; cbn [severity]; lia. }
  destruct (Qlt_le_dec q (65 # 100)) as [Q2 | Q2]; [ lra | ].
  rewrite (xlt_Fin_false Q2).
  destruct (Qlt_le_dec p (85 # 100)) as [P3 | P3];
    [ rewrite (xlt_Fin_true P3) | rewrite (xlt_Fin_false P3) ].
  { repeat match goal with
           | |- context [if ?c then _ else _] => destruct c
           end; cbn [severity]; lia. }
  destruct (Qlt_le_dec q (85 # 100)) as [Q3 | Q3]; [ lra | ].
  rewrite (xlt_Fin_false Q3). cbn [severity]. lia.
Qed.

(** X7: the risk band never improves as the LTV grows: for two LTVs in
    order the band of the larger one is at least as severe (infinities
    included); the cut points 0.50, 0.65 and 0.85 belong to the band
    above them. *)
Theorem X7_status_monotone_in_ltv (a b : num)
  (Hle : xle (val a) (val b)) :
  (severity (_get_status a) <= severity (_get_status b))%nat
  /\ _get_status (py (50 # 100)) = Caution
  /\ _get_status (py (65 # 100)) = Warning
  /\ _get_status (py (85 # 100)) = Danger.
Proof.
  split; [ apply get_status_monotone; exact Hle | ].
  repeat split.
Qed.

Lemma X7_status_monotone_in_ltv_witness :
  (severity (_get_status (py (49 # 100)))
   <= severity (_get_status (npf PInf)))%nat
  /\ _get_status (py (50 # 100)) = Caution
  /\ _get_status (py (65 # 100)) = Warning
  /\ _get_status (py (85 # 100)) = Danger.
Proof.
  apply (@X7_status_monotone_in_ltv (py (49 # 100)) (npf PInf)).
  exact I.
Defined.


(** *** The stress table on a sound calculator *)

(** A loop whose body returns [f x] and leaves the calculator alone. *)
Lemma for_each_map {A B} (xs : list A) (body : A -> M B) (f : A -> B)
  (self : LiquidationCalculator) :
  (forall x, In x xs -> body x self = (Ok (f x), self)) ->
  for_each xs body self = (Ok (map f xs), self).
Proof.
  induction xs as [ | x xs IH]; intro Hbody; [ reflexivity | ].
  cbn [for_each map]. unfold bind at 1.
  rewrite (Hbody x (or_introl eq_refl)).
  unfold bind at 1. rewrite IH; [ reflexivity | ].
  intros x' Hx'. apply Hbody. right. exact Hx'.
Qed.

(** The row of a scenario at a positive price, on built-in numbers. *)
Definition scenario_row (h d : Q) (scenario : string * num) : ScenarioRow :=
  let price := fin (val (snd scenario)) in
  {| Scenario := fst scenario;
     BTC_Price := snd scenario;
     BTC_Holdings_Value_M := py (h * price / 1000000);
     LTV_Ratio := py (d / (h * price));
     Collateral_Coverage := py (1 / (d / (h * price)));
     Status := _get_status (py (d / (h * price))) |}.

Lemma scenario_row_run (h p d i : Q) (name : string) (price : Q) :
  0 < h -> 0 < d -> 0 < price ->
  (ltv <- calculate_ltv_ratio (Some (py price)) ;;
   collateral_cov <- calculate_collateral_coverage (Some (py price)) ;;
   btc_value <- calculate_btc_value (Some (py price)) ;;
   value_m <- lift (num_div btc_value (py 1000000)) ;;
   ret {| Scenario := name;
          BTC_Price := py price;
          BTC_Holdings_Value_M := value_m;
          LTV_Ratio := ltv;
          Collateral_Coverage := collateral_cov;
          Status := _get_status ltv |})
    (mkCalc (py h) (py p) (py d) (py i))
  = (Ok (scenario_row h d (name, py price)), mkCalc (py h) (py p) (py d) (py i)).
Proof.
  intros Hh Hd Hprice.
  assert (Hhp : 0 < h * price) by (apply Qmult_lt_0_compat; assumption).
  assert (Hltv : 0 < d / (h * price)).
  { apply Qlt_shift_div_l; [ exact Hhp | lra ]. }
  assert (Heff : effective_num (py p) (Some (py price)) = py price).
  { unfold effective_num, truthy. cbn [val py xis_zero].
    rewrite (Qis_zero_pos Hprice). reflexivity. }
  unfold bind.
  rewrite ltv_ratio_run, collateral_coverage_pair, btc_value_run.
  cbn [btc_holdings btc_price total_debt].
  rewrite Heff. unfold num_mul, py. cbn [np val orb xmul].
  rewrite (@num_div_nonzero false false d _ (Qis_zero_pos Hhp)).
  cbn [rbind orb].
  rewrite (@num_div_nonzero false false 1 _ (Qis_zero_pos Hltv)).
  cbn [lift orb].
  rewrite (@num_div_nonzero false false (h * price) 1000000 eq_refl).
  reflexivity.
Qed.

Lemma Qdiv_antitone (d a b : Q) : 0 < d -> 0 < a -> a < b -> d / b < d / a.
Proof.
  intros Hd Ha Hab.
  assert (Hb : 0 < b) by lra.
  apply Qlt_shift_div_l; [ exact Ha | ].
  setoid_replace (d / b * a) with (d * (a / b)) by (field; intro E; lra).
  assert (Hr : a / b < 1) by (apply Qlt_shift_div_r; [ exact Hb | lra ]).
  nra.
Qed.

Definition ltv_rises (r1 r2 : ScenarioRow) : Prop :=
  num_lt (LTV_Ratio r1) (LTV_Ratio r2) = true.

Definition no_better (r1 r2 : ScenarioRow) : Prop :=
  (severity (Status r1) <= severity (Status r2))%nat.

Lemma scenario_rows_in_order (h d : Q) (n1 n2 : string) (p1 p2 : Q) :
  0 < h -> 0 < d -> 0 < p2 -> p2 < p1 ->
  ltv_rises (scenario_row h d (n1, py p1)) (scenario_row h d (n2, py p2))
  /\ no_better (scenario_row h d (n1, py p1)) (scenario_row h d (n2, py p2)).
Proof.
  intros Hh Hd Hp2 Hlt.
  assert (Hl : d / (h * p1) < d / (h * p2)).
  { apply Qdiv_antitone; [ exact Hd | nra | nra ]. }
  unfold ltv_rises, no_better, scenario_row, num_lt.
  cbn [fst snd val py fin LTV_Ratio Status]. split.
  - apply xlt_Fin_true. exact Hl.
  - apply get_status_monotone. cbn [val py xle]. lra.
Qed.

(** X8: on built-in numbers with positive holdings, price and debt the
    stress test returns its seven rows, from [Current] down to [-70%];
    down the table the LTV rises strictly and the risk band never
    improves. *)
Theorem X8_stress_test_worsens_down_the_table (h p d i : Q)
  (Hh : 0 < h) (Hp : 0 < p) (Hd : 0 < d) :
  exists rows,
    fst (stress_test_scenarios (mkCalc (py h) (py p) (py d) (py i))) = Ok rows
    /\ map Scenario rows
       = ["Current"; "-20%"; "-30%"; "-40%"; "-50%"; "-60%"; "-70%"]%string
    /\ StronglySorted ltv_rises rows
    /\ StronglySorted no_better rows.
Proof.
  unfold stress_test_scenarios, bind at 1. cbn [getattr btc_price].
  unfold num_mul, py. cbn [np val orb xmul]. fold (py p).
  erewrite (for_each_map _ _ (scenario_row h d)).
  2:{ intros [name price] Hin. cbn [In] in Hin.
      repeat (destruct Hin as [Hin | Hin];
              [ injection Hin as <- <-;
                apply (scenario_row_run p i _ Hh Hd); nra | ]).
      contradiction. }
  eexists. split; [ reflexivity | ]. split; [ reflexivity | ].
  assert (Hpair : forall n1 n2 p1 p2, 0 < p2 -> p2 < p1 ->
            ltv_rises (scenario_row h d (n1, py p1)) (scenario_row h d (n2, py p2))
            /\ no_better (scenario_row h d (n1, py p1))
                         (scenario_row h d (n2, py p2))).
  { intros. apply scenario_rows_in_order; assumption. }
  cbn [map]. fold (py p).
  split; repeat (constructor; [ | repeat (constructor;
    [ apply Hpair; nra | ]); constructor ]); constructor.
Qed.

Lemma X8_stress_test_worsens_down_the_table_witness :
  exists rows,
    fst (stress_test_scenarios
           (mkCalc (py 447470) (py 100000) (py 8214000000) (py 34580940)))
    = Ok rows
    /\ map Scenario rows
       = ["Current"; "-20%"; "-30%"; "-40%"; "-50%"; "-60%"; "-70%"]%string
    /\ StronglySorted ltv_rises rows
    /\ StronglySorted no_better rows.
Proof.
  apply (@X8_stress_test_worsens_down_the_table 447470 100000 8214000000 34580940);
    reflexivity.
Defined.


(** *** The heat map *)

Lemma map_result_length {A B} (f : A -> result B) (xs : list A) (ys : list B) :
  map_result f xs = Ok ys -> List.length ys = List.length xs.
Proof.
  revert ys. induction xs as [ | x xs IH]; intros ys; cbn [map_result].
  - intro H. injection H as <-. reflexivity.
  - destruct (f x) as [y | e]; [ | discriminate ]. cbn [rbind].
    destruct (map_result f xs) as [ys' | e]; [ | discriminate ]. cbn [rbind].
    intro H. injection H as <-. cbn [List.length]. f_equal. apply IH. reflexivity.
Qed.

Lemma map_result_each {A B} (f : A -> result B) (xs : list A) (ys : list B) :
  map_result f xs = Ok ys -> Forall (fun y => exists x, f x = Ok y) ys.
Proof.
  revert ys. induction xs as [ | x xs IH]; intros ys; cbn [map_result].
  - intro H. injection H as <-. constructor.
  - destruct (f x) as [y | e] eqn:Hy; [ | discriminate ]. cbn [rbind].
    destruct (map_result f xs) as [ys' | e]; [ | discriminate ]. cbn [rbind].
    intro H. injection H as <-.
    constructor; [ exists x; exact Hy | apply IH; reflexivity ].
Qed.

Lemma np_linspace_length (start stop : num) (n : nat) :
  (1 <= n)%nat -> List.length (np_linspace start stop n) = n.
Proof.
  intro Hn. unfold np_linspace.
  rewrite length_app, length_map, length_seq. cbn [List.length]. lia.
Qed.

Lemma index_short {A} (xs : list A) (i : nat) :
  (List.length xs <= i)%nat -> index xs i = Raise IndexError.
Proof.
  intro H. unfold index.
  destruct (nth_error xs i) eqn:E; [ | reflexivity ].
  apply nth_error_None in H. congruence.
Qed.

(** X9: [create_ltv_heatmap] raises [IndexError] when one of the two
    ranges has fewer than two entries.  Otherwise it returns a matrix of
    15 rows of 20 cells over the two [linspace] axes, and every cell is
    100 times the LTV that a calculator of its own, carrying the scaled
    debt, returns at the cell's price: nothing leaks from one cell into
    the next through the shared calculator. *)
Theorem X9_heatmap_matrix (self : LiquidationCalculator)
  (price_range debt_range : list num) :
  ((List.length price_range < 2)%nat \/ (List.length debt_range < 2)%nat ->
   fst (create_ltv_heatmap price_range debt_range self) = Raise IndexError)
  /\ forall p0 p1 prest d0 d1 drest,
       price_range = p0 :: p1 :: prest ->
       debt_range = d0 :: d1 :: drest ->
       exists hm,
         fst (create_ltv_heatmap price_range debt_range self) = Ok hm
         /\ heat_x hm = np_linspace p0 p1 20
         /\ heat_y hm = np_linspace d0 d1 15
         /\ List.length (heat_z hm) = 15%nat
         /\ Forall (fun row => List.length row = 20%nat) (heat_z hm)
         /\ map_result
              (fun debt_mult =>
                 map_result (independent_cell self (total_debt self) debt_mult)
                            (heat_x hm))
              (heat_y hm)
            = Ok (heat_z hm).
Proof.
  split.
  - intro Hshort. unfold create_ltv_heatmap, bind, lift.
    destruct price_range as [ | p0 [ | p1 prest]]; try reflexivity.
    cbn [index nth_error].
    destruct debt_range as [ | d0 [ | d1 drest]]; try reflexivity.
    cbn [List.length] in Hshort. lia.
  - intros p0 p1 prest d0 d1 drest -> ->.
    unfold create_ltv_heatmap, bind, lift. cbn [index nth_error getattr].
    pose proof (sweep_cellwise self (total_debt self)
                  (np_linspace d0 d1 15) (np_linspace p0 p1 20)) as Hcells.
    destruct (sweep_returns (total_debt self) (np_linspace p0 p1 20)
                (np_linspace_np d0 d1 15) self) as [matrix Hret].
    destruct (heatmap_sweep (total_debt self) (np_linspace d0 d1 15)
                (np_linspace p0 p1 20) self) as [r s'].
    cbn [fst] in Hret, Hcells. rewrite Hret in Hcells. rewrite Hret.
    cbn [set_total_debt ret fst].
    eexists. split; [ reflexivity | ].
    cbn [heat_x heat_y heat_z].
    split; [ reflexivity | ]. split; [ reflexivity | ].
    symmetry in Hcells.
    split; [ | split; [ | exact Hcells ] ].
    + rewrite (map_result_length _ _ Hcells).
      apply np_linspace_length. lia.
    + eapply Forall_impl; [ | exact (map_result_each _ _ Hcells) ].
      intros row [m Hrow]. cbn beta in Hrow.
      rewrite (map_result_length _ _ Hrow).
      apply np_linspace_length. lia.
Qed.

Lemma X9_heatmap_matrix_witness :
  fst (create_ltv_heatmap [py 20000] [py (1 # 2); py 2] example_calc)
  = Raise IndexError
  /\ exists hm,
       fst (create_ltv_heatmap [py 20000; py 200000] [py (1 # 2); py 2]
              example_calc) = Ok hm
       /\ heat_x hm = np_linspace (py 20000) (py 200000) 20
       /\ heat_y hm = np_linspace (py (1 # 2)) (py 2) 15
       /\ List.length (heat_z hm) = 15%nat
       /\ Forall (fun row => List.length row = 20%nat) (heat_z hm)
       /\ map_result
            (fun debt_mult =>
               map_result
                 (independent_cell example_calc (total_debt example_calc) debt_mult)
                 (heat_x hm))
            (heat_y hm)
          = Ok (heat_z hm).
Proof.
  split.
  - apply (@X9_heatmap_matrix example_calc [py 20000] [py (1 # 2); py 2]).
    left. cbn [List.length]. lia.
  - apply (proj2 (@X9_heatmap_matrix example_calc [py 20000; py 200000]
                    [py (1 # 2); py 2])
             (py 20000) (py 200000) [] (py (1 # 2)) (py 2) []);
      reflexivity.
Defined.

End LiquidationMore.

(* ================================================================== *)
(** * Further properties of the debt parser *)
(* ================================================================== *)

Section ParserMore.
Import DebtParser.
Local Open Scope string_scope.

(** The labels [parse_debt_data] converts, in the order it does. *)
Definition date_labels : list string :=
  ["Issue Date"; "Maturity"; "Put Date"; "Earliest Call Date"].

Definition number_labels : list string :=
  ["Price"; "Coupon"; "Notional ($M)"; "Market Val ($M)"; "BTC Par";
   "Ref Price"; "Conversion Price"].

(** A totals row, or a row without cells: what the row loop skips. *)
Definition skipped (tr : Tr) : Prop :=
  (exists cls, In cls (tr_class tr) /\ contains "totalsRow" cls = true)
  \/ td_texts tr = [].

Lemma skipped_not_kept (tr : Tr) : skipped tr -> keep_row tr = false.
Proof.
  unfold keep_row. intros [[cls [Hin Hc]] | Hempty].
  - assert (H : existsb (contains "totalsRow") (tr_class tr) = true).
    { apply existsb_exists. exists cls. split; assumption. }
    rewrite H. reflexivity.
  - rewrite Hempty. apply andb_false_r.
Qed.

(** X10: a totals row (a row one of whose classes contains
    [totalsRow]) and a row without cells are invisible: wherever such a
    row stands in the body, the parse gives what it gives without it,
    frame or exception alike. *)
Theorem X10_totals_row_is_invisible
  (head : option (option (list Th))) (before after : list Tr) (tr : Tr)
  (Hskip : skipped tr) :
  parse_debt_data (Some (mkTable head (Some (before ++ tr :: after)%list)))
  = parse_debt_data (Some (mkTable head (Some (before ++ after)%list))).
Proof.
  unfold parse_debt_data. cbn [thead_tr tbody].
  destruct head as [[ths | ] | ]; try reflexivity.
  rewrite !filter_app. cbn [filter].
  rewrite (skipped_not_kept Hskip). reflexivity.
Qed.

Lemma X10_totals_row_is_invisible_witness :
  parse_debt_data
    (Some (mkTable (Some (Some debt_headers))
             (Some ([good_row] ++ mkTr ["footer totalsRow_x1"] ["Total"; "$8,214"]
                    :: [bad_date_row])%list)))
  = parse_debt_data
      (Some (mkTable (Some (Some debt_headers))
               (Some ([good_row] ++ [bad_date_row])%list))).
Proof.
  apply (@X10_totals_row_is_invisible (Some (Some debt_headers))
           [good_row] [bad_date_row]
           (mkTr ["footer totalsRow_x1"] ["Total"; "$8,214"])).
  left. exists "footer totalsRow_x1". split; [ left | ]; reflexivity.
Defined.

(** *** The shape of the frame *)

Definition shape (df : DataFrame) : list string * list nat :=
  (columns df, map (@List.length cell) (data df)).

Lemma update_nth_length {A} (i : nat) (f : A -> result A) (xs ys : list A) :
  update_nth i f xs = Ok ys -> List.length ys = List.length xs.
Proof.
  revert i ys. induction xs as [ | x xs IH]; intros i ys; cbn [update_nth].
  - intro H. injection H as <-. reflexivity.
  - destruct i as [ | i].
    + destruct (f x); [ | discriminate ]. cbn [rbind].
      intro H. injection H as <-. reflexivity.
    + specialize (IH i). destruct (update_nth i f xs); [ | discriminate ].
      cbn [rbind]. intro H. injection H as <-.
      cbn [List.length]. f_equal. apply IH. reflexivity.
Qed.

Lemma map_result_lengths {A} (g : list A -> result (list A))
  (rows rows' : list (list A)) :
  (forall r r', g r = Ok r' -> List.length r' = List.length r) ->
  map_result g rows = Ok rows' ->
  map (@List.length A) rows' = map (@List.length A) rows.
Proof.
  intro Hg. revert rows'.
  induction rows as [ | r rows IH]; intros rows'; cbn [map_result].
  - intro H. injection H as <-. reflexivity.
  - destruct (g r) as [r' | e] eqn:Hr; [ | discriminate ]. cbn [rbind].
    destruct (map_result g rows) as [rs | e]; [ | discriminate ]. cbn [rbind].
    intro H. injection H as <-. cbn [map].
    rewrite (Hg _ _ Hr), (IH rs eq_refl). reflexivity.
Qed.

Lemma apply_column_shape (name : string) (f : option string -> result cell)
  (df df' : DataFrame) :
  apply_column name f df = Ok df' ->
  shape df' = shape df /\ find_col name (columns df) <> None.
Proof.
  unfold apply_column.
  destruct (find_col name (columns df)) as [i | ]; [ | discriminate ].
  destruct (1 <? occurrences name (columns df))%nat.
  { destruct (data df); [ | discriminate ].
    intro H. injection H as <-. split; [ reflexivity | discriminate ]. }
  destruct (map_result _ (data df)) as [rows | e] eqn:Hrows; [ | discriminate ].
  cbn [rbind]. intro H. injection H as <-.
  split; [ | discriminate ].
  unfold shape. cbn [columns data]. f_equal.
  apply (map_result_lengths _ _ (fun r r' => @update_nth_length _ i _ r r') Hrows).
Qed.

Lemma find_col_In (name : string) (cols : list string) :
  find_col name cols <> None <-> In name cols.
Proof.
  induction cols as [ | c cols IH]; cbn [find_col In].
  - split; [ congruence | contradiction ].
  - destruct (String.eqb_spec c name) as [-> | Hne].
    + split; [ intros _; left; reflexivity | discriminate ].
    + destruct (find_col name cols); cbn [option_map].
      * split; [ intros _; right; apply IH; discriminate | discriminate ].
      * split; [ congruence | ].
        intros [H | H]; [ congruence | ]. apply IH in H. congruence.
Qed.

Lemma max_width_bound (rows : list (list string)) (row : list string) :
  In row rows ->
  (List.length row <= fold_right Nat.max 0 (map (@List.length string) rows))%nat.
Proof.
  induction rows as [ | r rows IH]; cbn [In map fold_right]; [ contradiction | ].
  intros [-> | H]; [ lia | ]. specialize (IH H). lia.
Qed.

Lemma pad_length (w : nat) (row : list string) :
  (List.length row <= w)%nat -> List.length (pad w row) = w.
Proof.
  intro H. unfold pad. rewrite length_app, length_map, repeat_length. lia.
Qed.

Lemma new_DataFrame_shape (rows_data : list (list string)) (headers : list string)
  (df : DataFrame) :
  new_DataFrame rows_data headers = Ok df ->
  shape df = (headers, map (fun _ => List.length headers) rows_data).
Proof.
  unfold new_DataFrame.
  destruct rows_data as [ | r rows].
  - intro H. injection H as <-. reflexivity.
  - remember (r :: rows) as all eqn:Hall. clear Hall.
    destruct (Nat.eqb_spec
                (fold_right Nat.max 0%nat (map (@List.length string) all))
                (List.length headers)) as [Hw | Hw]; [ | discriminate ].
    intro H. injection H as <-. rewrite <- Hw.
    unfold shape. cbn [columns data]. f_equal.
    rewrite map_map. apply map_ext_in. intros row Hrow.
    apply pad_length. apply max_width_bound. exact Hrow.
Qed.

(** Everything [parse_debt_data] does after the frame is built. *)
Lemma parse_debt_data_steps (soup_table : option Table) (df : DataFrame) :
  parse_debt_data soup_table = Ok df ->
  exists ths trs df0,
    soup_table = Some (mkTable (Some (Some ths)) (Some trs))
    /\ new_DataFrame (map td_texts (filter keep_row trs)) (map header_label ths)
       = Ok df0
    /\ shape df = shape df0
    /\ Forall (fun label => In label (columns df0)) (date_labels ++ number_labels)%list.
Proof.
  unfold parse_debt_data.
  destruct soup_table as [[[[ths | ] | ] [trs | ]] | ]; try discriminate.
  cbn [thead_tr tbody].
  destruct (new_DataFrame _ _) as [df0 | e] eqn:Hnew; [ | discriminate ].
  cbn [rbind].
  repeat match goal with
         | |- rbind (apply_column ?n ?f ?d) _ = _ -> _ =>
             let d' := fresh "df" in
             let H := fresh "H" in
             destruct (apply_column n f d) as [d' | ] eqn:H;
             [ apply apply_column_shape in H; cbn [rbind] | discriminate ]
         end.
  intro Hlast. apply apply_column_shape in Hlast.
  exists ths, trs, df0. split; [ reflexivity | ]. split; [ exact Hnew | ].
  clear Hnew.
  repeat match goal with
         | H : shape _ = shape _ /\ _ |- _ => destruct H
         end.
  assert (Hcols : forall a b : DataFrame, shape a = shape b -> columns a = columns b).
  { intros a b E. unfold shape in E. congruence. }
  split; [ congruence | ].
  repeat match goal with
         | H : shape ?a = shape ?b |- _ => apply Hcols in H
         end.
  unfold date_labels, number_labels. cbn [app].
  repeat constructor; apply find_col_In; congruence.
Qed.

(** X11: a frame that [parse_debt_data] returns has the header labels
    as its columns, one row for every body row that is neither a totals
    row nor empty, and in every row exactly one cell per column. *)
Theorem X11_parsed_frame_shape (soup_table : option Table) (df : DataFrame)
  (Hparse : parse_debt_data soup_table = Ok df) :
  exists ths trs,
    soup_table = Some (mkTable (Some (Some ths)) (Some trs))
    /\ columns df = map header_label ths
    /\ List.length (data df) = List.length (filter keep_row trs)
    /\ Forall (fun row => List.length row = List.length (columns df)) (data df).
Proof.
  destruct (parse_debt_data_steps _ Hparse) as [ths [trs [df0 [-> [H0 [Hs _]]]]]].
  apply new_DataFrame_shape in H0. rewrite H0 in Hs.
  unfold shape in Hs. injection Hs as Hc Hr.
  exists ths, trs. split; [ reflexivity | ]. split; [ exact Hc | ].
  split.
  - rewrite <- (length_map (@List.length cell)), Hr, !length_map. reflexivity.
  - rewrite Hc. apply Forall_forall. intros row Hrow.
    apply (in_map (@List.length cell)) in Hrow. rewrite Hr in Hrow.
    apply in_map_iff in Hrow. destruct Hrow as [_ [E _]]. symmetry. exact E.
Qed.

Lemma X11_parsed_frame_shape_witness :
  exists df ths trs,
    parse_debt_data (table_of [good_row; bad_date_row]) = Ok df
    /\ table_of [good_row; bad_date_row]
       = Some (mkTable (Some (Some ths)) (Some trs))
    /\ columns df = map header_label ths
    /\ List.length (data df) = List.length (filter keep_row trs)
    /\ Forall (fun row => List.length row = List.length (columns df)) (data df).
Proof.
  eexists.
  assert (H : parse_debt_data (table_of [good_row; bad_date_row]) = Ok _)
    by (vm_compute; reflexivity).
  destruct (X11_parsed_frame_shape _ H) as [ths [trs Hrest]].
  exists ths, trs. split; [ exact H | exact Hrest ].
Defined.

(** X12: [parse_debt_data] returns a frame only for a table that has a
    header row and a body and, among its header labels, all eleven
    columns it converts; the label of a header cell is its [aria-label]
    when it has one. *)
Theorem X12_parse_needs_all_columns (soup_table : option Table) (df : DataFrame)
  (Hparse : parse_debt_data soup_table = Ok df) :
  exists ths trs,
    soup_table = Some (mkTable (Some (Some ths)) (Some trs))
    /\ Forall (fun label => In label (map header_label ths))
              (date_labels ++ number_labels)%list.
Proof.
  destruct (parse_debt_data_steps _ Hparse) as [ths [trs [df0 [-> [H0 [_ Hall]]]]]].
  apply new_DataFrame_shape in H0. unfold shape in H0. injection H0 as Hc _.
  exists ths, trs. split; [ reflexivity | ]. rewrite <- Hc. exact Hall.
Qed.

Lemma X12_parse_needs_all_columns_witness :
  exists df ths trs,
    parse_debt_data (table_of [good_row]) = Ok df
    /\ table_of [good_row] = Some (mkTable (Some (Some ths)) (Some trs))
    /\ Forall (fun label => In label (map header_label ths))
              (date_labels ++ number_labels)%list.
Proof.
  eexists.
  assert (H : parse_debt_data (table_of [good_row]) = Ok _)
    by (vm_compute; reflexivity).
  destruct (X12_parse_needs_all_columns _ H) as [ths [trs Hrest]].
  exists ths, trs. split; [ exact H | exact Hrest ].
Defined.


(** *** Structural errors *)







(** X14: a body row that is kept and has more cells than the header
    row has labels makes the parse end with [ValueError]: the frame
    cannot be built. *)
Theorem X14_row_wider_than_header_raises_ValueError
  (ths : list Th) (trs : list Tr) (tr : Tr)
  (Hin : In tr trs) (Hkept : keep_row tr = true)
  (Hwide : (List.length ths < List.length (td_texts tr))%nat) :
  parse_debt_data (Some (mkTable (Some (Some ths)) (Some trs))) = Raise ValueError.
Proof.
  unfold parse_debt_data. cbn [thead_tr tbody].
  assert (Hrow : In (td_texts tr) (map td_texts (filter keep_row trs))).
  { apply in_map. apply filter_In. split; assumption. }
  pose proof (max_width_bound _ _ Hrow) as Hmax.
  unfold new_DataFrame.
  destruct (map td_texts (filter keep_row trs)) as [ | r rows];
    [ contradiction | ].
  remember (r :: rows) as all eqn:Hall. clear Hall.
  rewrite length_map.
  destruct (Nat.eqb_spec
              (fold_right Nat.max 0%nat (map (@List.length string) all))
              (List.length ths)) as [Hw | Hw]; [ lia | reflexivity ].
Qed.

Lemma X14_row_wider_than_header_raises_ValueError_witness :
  parse_debt_data
    (Some (mkTable (Some (Some debt_headers))
             (Some [good_row;
                    mkTr [] ["a"; "b"; "c"; "d"; "e"; "f"; "g"; "h"; "i"; "j";
                             "k"; "l"; "m"]])))
  = Raise ValueError.
Proof.
  apply (@X14_row_wider_than_header_raises_ValueError debt_headers _
           (mkTr [] ["a"; "b"; "c"; "d"; "e"; "f"; "g"; "h"; "i"; "j";
                     "k"; "l"; "m"])).
  - right. left. reflexivity.
  - reflexivity.
  - vm_compute. lia.
Defined.

(** *** Dates *)

Lemma digit_val_range (c : ascii) :
  is_digit c = true -> (0 <= digit_val c <= 9)%Z.
Proof.
  unfold is_digit, digit_val. intro H.
  apply andb_true_iff in H. destruct H as [H1 H2].
  apply Nat.leb_le in H1. apply Nat.leb_le in H2. lia.
Qed.

Lemma digit_val_nonzero (c : ascii) :
  is_digit c = true -> Ascii.eqb c "0" = false -> (1 <= digit_val c)%Z.
Proof.
  unfold is_digit, digit_val, code. intros H Hne.
  apply andb_true_iff in H. destruct H as [H1 H2].
  apply Nat.leb_le in H1.
  assert (Hc : nat_of_ascii c <> 48%nat).
  { intro E. apply Ascii.eqb_neq in Hne. apply Hne.
    rewrite <- (ascii_nat_embedding c), E. reflexivity. }
  lia.
Qed.

Lemma digit_val_of (c d : ascii) : Ascii.eqb c d = true -> digit_val c = digit_val d.
Proof. intro H. apply Ascii.eqb_eq in H. subst. reflexivity. Qed.

Lemma Some_eq {A} (a b : A) : Some a = Some b -> a = b.
Proof. congruence. Qed.

Lemma directive_m_range (cs : list ascii) (m : Z) :
  directive_m cs = Some m -> (1 <= m <= 12)%Z.
Proof.
  unfold directive_m.
  destruct cs as [ | a [ | b [ | ? ?]]]; try discriminate.
  - destruct (is_digit a) eqn:Da; [ | discriminate ].
    destruct (Ascii.eqb a "0") eqn:Za; [ discriminate | ].
    cbn [andb negb]. intro H. apply Some_eq in H. subst.
    pose proof (digit_val_range _ Da). pose proof (digit_val_nonzero _ Da Za). lia.
  - destruct (is_digit b) eqn:Db;
      [ | rewrite !andb_false_r; discriminate ].
    pose proof (digit_val_range _ Db) as Rb.
    destruct (Ascii.eqb a "1") eqn:A1.
    + rewrite (digit_val_of _ _ A1). cbn [andb orb].
      destruct (digit_val b <=? 2)%Z eqn:L.
      * intro H. apply Some_eq in H. subst. apply Z.leb_le in L.
        change (digit_val "1") with 1%Z. lia.
      * cbn [orb]. destruct (Ascii.eqb a "0") eqn:A0.
        { apply Ascii.eqb_eq in A1, A0. congruence. }
        discriminate.
    + cbn [andb orb]. destruct (Ascii.eqb a "0") eqn:A0; [ | discriminate ].
      rewrite (digit_val_of _ _ A0). cbn [andb].
      destruct (Ascii.eqb b "0") eqn:Zb; [ discriminate | ].
      cbn [negb]. intro H. apply Some_eq in H. subst.
      pose proof (digit_val_nonzero _ Db Zb).
      change (digit_val "0") with 0%Z. lia.
Qed.

Lemma directive_d_range (cs : list ascii) (d : Z) :
  directive_d cs = Some d -> (1 <= d <= 31)%Z.
Proof.
  unfold directive_d.
  destruct cs as [ | a [ | b [ | ? ?]]]; try discriminate.
  - destruct (is_digit a) eqn:Da; [ | discriminate ].
    destruct (Ascii.eqb a "0") eqn:Za; [ discriminate | ].
    cbn [andb negb]. intro H. apply Some_eq in H. subst.
    pose proof (digit_val_range _ Da). pose proof (digit_val_nonzero _ Da Za). lia.
  - destruct (is_digit b) eqn:Db;
      [ | rewrite !andb_false_r; discriminate ].
    pose proof (digit_val_range _ Db) as Rb.
    rewrite !andb_true_r.
    destruct (Ascii.eqb a "3") eqn:A3;
      [ rewrite (digit_val_of _ _ A3); change (digit_val "3") with 3%Z | ];
    destruct (Ascii.eqb a "1") eqn:A1;
      try (rewrite (digit_val_of _ _ A1); change (digit_val "1") with 1%Z);
    destruct (Ascii.eqb a "2") eqn:A2;
      try (rewrite (digit_val_of _ _ A2); change (digit_val "2") with 2%Z);
    destruct (Ascii.eqb a "0") eqn:A0;
      try (rewrite (digit_val_of _ _ A0); change (digit_val "0") with 0%Z);
    destruct (Ascii.eqb a " ") eqn:As;
    try (match goal with
         | H1 : Ascii.eqb a ?x = true, H2 : Ascii.eqb a ?y = true |- _ =>
             apply Ascii.eqb_eq in H1; apply Ascii.eqb_eq in H2; congruence
         end);
    destruct (Ascii.eqb b "0") eqn:Zb;
    destruct (digit_val b <=? 1)%Z eqn:L;
    cbn [andb orb negb]; try discriminate;
    intro H; apply Some_eq in H; subst;
    try apply Z.leb_le in L;
    try pose proof (digit_val_nonzero _ Db Zb); lia.
Qed.

Lemma directive_Y_range (cs : list ascii) (y : Z) :
  directive_Y cs = Some y -> (0 <= y <= 9999)%Z.
Proof.
  unfold directive_Y.
  destruct cs as [ | a [ | b [ | c [ | d [ | ? ?]]]]]; try discriminate.
  destruct (is_digit a) eqn:Da, (is_digit b) eqn:Db,
           (is_digit c) eqn:Dc, (is_digit d) eqn:Dd;
    cbn [andb]; try discriminate.
  intro H. apply Some_eq in H. subst.
  pose proof (digit_val_range _ Da). pose proof (digit_val_range _ Db).
  pose proof (digit_val_range _ Dc). pose proof (digit_val_range _ Dd). lia.
Qed.

(** X15: [parse_date] only ever yields a date of the calendar: a year
    from 1 to 9999, a month from 1 to 12 and a day that exists in that
    month of that year (29 February in leap years only). *)
Theorem X15_parse_date_yields_calendar_dates
  (date_str : option string) (d : datetime)
  (Hparse : parse_date date_str = Some d) :
  (1 <= year d <= 9999)%Z
  /\ (1 <= month d <= 12)%Z
  /\ (1 <= day d <= days_in_month (year d) (month d))%Z.
Proof.
  unfold parse_date in Hparse.
  destruct date_str as [s | ]; [ | discriminate ].
  destruct (is_blank (Some s)); [ discriminate | ].
  unfold strptime_mdY in Hparse.
  destruct (split_on "/" (list_ascii_of_string s))
    as [ | ms [ | ds [ | ys [ | ? ?]]]]; try discriminate.
  destruct (directive_m ms) as [mo | ] eqn:Hm; [ | discriminate ].
  destruct (directive_d ds) as [da | ] eqn:Hd; [ | discriminate ].
  destruct (directive_Y ys) as [ye | ] eqn:Hy; [ | discriminate ].
  destruct ((1 <=? ye) && (da <=? days_in_month ye mo))%Z eqn:Hok;
    [ | discriminate ].
  injection Hparse as <-. cbn [year month day].
  apply andb_true_iff in Hok. destruct Hok as [H1 H2].
  apply Z.leb_le in H1. apply Z.leb_le in H2.
  pose proof (directive_m_range _ Hm).
  pose proof (directive_d_range _ Hd).
  pose proof (directive_Y_range _ Hy).
  lia.
Qed.

Lemma X15_parse_date_yields_calendar_dates_witness :
  (1 <= 2024 <= 9999)%Z /\ (1 <= 2 <= 12)%Z
  /\ (1 <= 29 <= days_in_month 2024 2)%Z.
Proof.
  apply (@X15_parse_date_yields_calendar_dates (Some "02/29/2024")
           (mkDate 2024 2 29)).
  reflexivity.
Defined.

End ParserMore.

(* ================================================================== *)
(** * Further properties of the aggregator *)
(* ================================================================== *)

Section AggregatorMore.
Import DebtParser.




(** *** Nearest and furthest maturity *)

Section DateFold.
Variable pick : Z -> Z -> Z.
Variable before : Z -> Z -> Prop.
Hypothesis pick_one : forall a b, pick a b = a \/ pick a b = b.
Hypothesis pick_l : forall a b, before (pick a b) a.
Hypothesis pick_r : forall a b, before (pick a b) b.
Hypothesis before_trans : forall a b c, before a b -> before b c -> before a c.

Lemma date_fold_from (col : list (option Z)) (acc : option Z) :
  let r := fold_left (fun acc d =>
                        match acc, d with
                        | Some a, Some t => Some (pick a t)
                        | None, _ => d
                        | _, None => acc
                        end) col acc in
  (r = None <-> acc = None /\ Forall (fun d => d = None) col)
  /\ forall m, r = Some m ->
       (acc = Some m \/ In (Some m) col)
       /\ (forall a, acc = Some a -> before m a)
       /\ (forall t, In (Some t) col -> before m t).
Proof.
  revert acc. induction col as [ | d col IH]; intro acc; cbn [fold_left].
  - split.
    + split; [ intro H; split; [ exact H | constructor ] | tauto ].
    + intros m Hm. split; [ left; exact Hm | ]. split.
      * intros a Ha. rewrite Ha in Hm. injection Hm as <-.
        destruct (pick_one a a) as [E | E]; rewrite <- E at 1; apply pick_l.
      * intros t [].
  - specialize (IH (match acc, d with
                    | Some a, Some t => Some (pick a t)
                    | None, _ => d
                    | _, None => acc
                    end)).
    cbv zeta in IH. destruct IH as [IHnone IHsome]. split.
    + rewrite IHnone. destruct acc as [a | ], d as [t | ]; split;
        intros [H1 H2]; try discriminate;
        try (split; [ reflexivity | constructor; [ reflexivity | exact H2 ] ]);
        try (inversion H2; subst; discriminate);
        try (inversion H2; subst; split; [ reflexivity | assumption ]).
    + intros m Hm. destruct (IHsome m Hm) as [Hmem [Hacc Hcol]].
      destruct acc as [a | ], d as [t | ].
      * split; [ | split ].
        { destruct Hmem as [E | E]; [ | right; right; exact E ].
          injection E as E. destruct (pick_one a t) as [P | P].
          - left. congruence.
          - right. left. congruence. }
        { intros a' Ha'. injection Ha' as <-.
          eapply before_trans; [ apply (Hacc _ eq_refl) | apply pick_l ]. }
        { intros t' [E | E]; [ | apply Hcol; exact E ].
          injection E as <-.
          eapply before_trans; [ apply (Hacc _ eq_refl) | apply pick_r ]. }
      * split; [ | split ].
        { destruct Hmem as [E | E]; [ left; exact E | right; right; exact E ]. }
        { exact Hacc. }
        { intros t' [E | E]; [ discriminate | apply Hcol; exact E ]. }
      * split; [ | split ].
        { destruct Hmem as [E | E]; [ right; left; exact E | right; right; exact E ]. }
        { intros a' Ha'. discriminate. }
        { intros t' [E | E]; [ | apply Hcol; exact E ].
          injection E as <-. apply (Hacc _ eq_refl). }
      * split; [ | split ].
        { destruct Hmem as [E | E]; [ discriminate | right; right; exact E ]. }
        { intros a' Ha'. discriminate. }
        { intros t' [E | E]; [ discriminate | apply Hcol; exact E ]. }
Qed.

End DateFold.

Lemma nearest_spec (col : list (option Z)) :
  (date_fold Z.min col = None <-> Forall (fun d => d = None) col)
  /\ forall m, date_fold Z.min col = Some m ->
       In (Some m) col /\ forall t, In (Some t) col -> (m <= t)%Z.
Proof.
  destruct (@date_fold_from Z.min Z.le) with (col := col) (acc := @None Z)
    as [Hnone Hsome]; try (intros; lia).
  split.
  - unfold date_fold. rewrite Hnone. tauto.
  - intros m Hm. destruct (Hsome m Hm) as [[E | E] [_ Hcol]];
      [ discriminate | ]. split; assumption.
Qed.

Lemma furthest_spec (col : list (option Z)) :
  (date_fold Z.max col = None <-> Forall (fun d => d = None) col)
  /\ forall m, date_fold Z.max col = Some m ->
       In (Some m) col /\ forall t, In (Some t) col -> (t <= m)%Z.
Proof.
  destruct (@date_fold_from Z.max Z.ge) with (col := col) (acc := @None Z)
    as [Hnone Hsome]; try (intros; lia).
  split.
  - unfold date_fold. rewrite Hnone. tauto.
  - intros m Hm. destruct (Hsome m Hm) as [[E | E] [_ Hcol]];
      [ discriminate | ]. split; [ assumption | ].
    intros t Ht. specialize (Hcol t Ht). lia.
Qed.

(** X18: in the metrics of a frame whose notional column is a float64
    column, [nearest_maturity] and [furthest_maturity] are missing
    exactly when no record has a maturity date (the metrics are returned
    all the same); otherwise both are maturity dates of the portfolio and
    every maturity date lies between them. *)
Theorem X18_nearest_and_furthest_maturity (df : list BondRecord) :
  exists metrics,
    calculate_debt_metrics float64 df = Ok metrics
    /\ (nearest_maturity metrics = None
        <-> Forall (fun r => Maturity r = None) df)
    /\ (furthest_maturity metrics = None
        <-> Forall (fun r => Maturity r = None) df)
    /\ (forall lo, nearest_maturity metrics = Some lo ->
          (exists r, In r df /\ Maturity r = Some lo)
          /\ forall r t, In r df -> Maturity r = Some t -> (lo <= t)%Z)
    /\ (forall hi, furthest_maturity metrics = Some hi ->
          (exists r, In r df /\ Maturity r = Some hi)
          /\ forall r t, In r df -> Maturity r = Some t -> (t <= hi)%Z).
Proof.
  unfold calculate_debt_metrics, Series_sum, num_div, nansum.
  cbn [np npf orb rbind].
  eexists. split; [ reflexivity | ].
  cbn [nearest_maturity furthest_maturity].
  destruct (nearest_spec (map Maturity df)) as [Nn Ns].
  destruct (furthest_spec (map Maturity df)) as [Fn Fs].
  rewrite Forall_map in Nn, Fn.
  split; [ exact Nn | ]. split; [ exact Fn | ].
  split.
  - intros lo Hlo. destruct (Ns lo Hlo) as [Hin Hall]. split.
    + apply in_map_iff in Hin. destruct Hin as [r [E Hr]]. exists r. tauto.
    + intros r t Hr Ht. apply Hall. rewrite <- Ht. apply in_map. exact Hr.
  - intros hi Hhi. destruct (Fs hi Hhi) as [Hin Hall]. split.
    + apply in_map_iff in Hin. destruct Hin as [r [E Hr]]. exists r. tauto.
    + intros r t Hr Ht. apply Hall. rewrite <- Ht. apply in_map. exact Hr.
Qed.

End AggregatorMore.


(* ================================================================== *)
(** * Further properties of the maturity analyzer *)
(* ================================================================== *)

Section MaturityMore.
Import DebtParser MaturityAnalysis.

Lemma round_half_even_Z (z : Z) : round_half_even (inject_Z z) = z.
Proof.
  unfold round_half_even. rewrite Qfloor_Z.
  assert (E : (inject_Z z - inject_Z z ?= 1 # 2) = Lt).
  { apply (proj1 (Qlt_alt _ _)). generalize (inject_Z z). intro q. lra. }
  rewrite E. reflexivity.
Qed.

Lemma years_to_sign (now t : Z) :
  exists y,
    years_to now (Some t) = Fin y
    /\ ((t <= now)%Z -> y <= 0)
    /\ ((now <= t)%Z -> 0 <= y).
Proof.
  unfold years_to.
  set (days := ((t - now) / day_us)%Z).
  set (q := inject_Z days / (36525 # 100) * 100).
  exists (inject_Z (round_half_even q) / 100).
  split; [ reflexivity | ].
  assert (Hq : q == inject_Z days * (10000 # 36525)) by (unfold q; field).
  split; intro H.
  - assert (Hd : (days <= 0)%Z).
    { unfold days. apply Z.div_le_upper_bound; [ reflexivity | ].
      rewrite Z.mul_0_r. lia. }
    assert (Hq0 : q <= inject_Z 0).
    { rewrite Hq. rewrite (Zle_Qle days 0) in Hd.
      change (inject_Z 0) with 0 in *.
      revert Hd. generalize (inject_Z days). intros x Hx. lra. }
    apply round_half_even_mono in Hq0. rewrite round_half_even_Z in Hq0.
    rewrite (Zle_Qle _ 0) in Hq0. change (inject_Z 0) with 0 in Hq0.
    apply Qle_shift_div_r; [ reflexivity | ].
    revert Hq0. generalize (inject_Z (round_half_even q)). intros x Hx. lra.
  - assert (Hd : (0 <= days)%Z).
    { unfold days. apply Z.div_pos; [ lia | reflexivity ]. }
    assert (Hq0 : inject_Z 0 <= q).
    { rewrite Hq. rewrite (Zle_Qle 0 days) in Hd.
      change (inject_Z 0) with 0 in *.
      revert Hd. generalize (inject_Z days). intros x Hx. lra. }
    apply round_half_even_mono in Hq0. rewrite round_half_even_Z in Hq0.
    rewrite (Zle_Qle 0 _) in Hq0. change (inject_Z 0) with 0 in Hq0.
    apply Qle_shift_div_l; [ reflexivity | ].
    revert Hq0. generalize (inject_Z (round_half_even q)). intros x Hx. lra.
Qed.

(** X19: in the schedule, [Years to Maturity] is [nan] for an entry
    without a maturity date; for a dated entry it is a finite number
    that is never positive once the date has passed and never negative
    before it. *)
Theorem X19_years_to_maturity_sign
  (df : list BondRecord) (now : Z) (e : ScheduleEntry)
  (Hin : In e (get_maturity_schedule (MaturityAnalysis.__init__ df) now)) :
  match entry_Maturity e with
  | None => Years_to_Maturity e = NaN
  | Some t =>
      exists y,
        Years_to_Maturity e = Fin y
        /\ ((t <= now)%Z -> y <= 0)
        /\ ((now <= t)%Z -> 0 <= y)
  end.
Proof.
  unfold get_maturity_schedule in Hin.
  apply in_map_iff in Hin. destruct Hin as [r [<- _]].
  cbn [entry_Maturity Years_to_Maturity].
  destruct (Maturity r) as [t | ]; [ apply years_to_sign | reflexivity ].
Qed.

Lemma X19_years_to_maturity_sign_witness :
  exists y,
    Fin (inject_Z (round_half_even
                     (inject_Z ((400 * day_us - 800 * day_us) / day_us)
                      / (36525 # 100) * 100)) / 100) = Fin y
    /\ ((400 * day_us <= 800 * day_us)%Z -> y <= 0)
    /\ ((800 * day_us <= 400 * day_us)%Z -> 0 <= y).
Proof.
  apply (@X19_years_to_maturity_sign rollover_frame (800 * day_us)
           (mkEntry "2027 Convert" (Some (400 * day_us)%Z) (Fin 1050) (Fin 0) None
              (years_to (800 * day_us) (Some (400 * day_us)%Z))
              (years_to (800 * day_us) None))).
  vm_compute. left. reflexivity.
Defined.

(** *** The share of the window *)








(** X28: a window whose cut-off date is no [datetime], being after
    year 9999 or before year 1, makes the call raise [OverflowError],
    whatever the records of the portfolio and the dtype of its notional
    column: the cut-off is computed before any notional is summed. *)
Theorem X28_rollover_window_out_of_range
  (self : MaturityAnalyzer) (Notional_dtype : dtype)
  (t_now d_now : Z) (years : Q)
  (Hout : (d_now + timedelta_days (years * (36525 # 100)) < datetime_min)%Z
          \/ (datetime_max < d_now + timedelta_days (years * (36525 # 100)))%Z) :
  calculate_rollover_requirement self Notional_dtype t_now d_now years
  = Raise OverflowError.
Proof.
  unfold calculate_rollover_requirement, timedelta.
  destruct ((-999999999 <=? _) && _)%Z; [ | reflexivity ].
  cbn [rbind]. unfold datetime_add.
  assert (Hno : ((datetime_min
                  <=? d_now + timedelta_days (years * (36525 # 100)))
                 && (d_now + timedelta_days (years * (36525 # 100))
                     <=? datetime_max))%Z = false).
  { apply andb_false_iff. destruct Hout as [H | H].
    - left. apply Z.leb_gt. exact H.
    - right. apply Z.leb_gt. exact H. }
  rewrite Hno. reflexivity.
Qed.

Lemma X28_rollover_window_out_of_range_witness :
  calculate_rollover_requirement (MaturityAnalysis.__init__ rollover_frame)
    float64 (20454 * day_us) (20454 * day_us) 10000
  = Raise OverflowError.
Proof.
  apply (@X28_rollover_window_out_of_range
           (MaturityAnalysis.__init__ rollover_frame) float64
           (20454 * day_us) (20454 * day_us) 10000).
  right. vm_compute. reflexivity.
Defined.


(** *** Refinancing risk *)

Definition schedule_entry (now : Z) (r : BondRecord) : ScheduleEntry :=
  {| entry_Name := Name r;
     entry_Maturity := Maturity r;
     entry_Notional := Notional r;
     entry_Coupon := Coupon r;
     entry_Put_Date := Put_Date r;
     Years_to_Maturity := years_to now (Maturity r);
     Years_to_Put := years_to now (Put_Date r) |}.

Lemma schedule_as_map (self : MaturityAnalyzer) (now : Z) :
  get_maturity_schedule self now = map (schedule_entry now) (debt_df self).
Proof. reflexivity. Qed.

Lemma same_name_unique (full : list BondRecord) (r : BondRecord) :
  NoDup (map Name full) -> In r full ->
  filter (fun x => String.eqb (Name x) (Name r)) full = [r].
Proof.
  induction full as [ | x full IH]; cbn [map filter In]; [ contradiction | ].
  intros Hnd Hin. inversion Hnd as [ | ? ? Hnot Hnd']; subst.
  assert (Hnone : forall y, ~ In (Name y) (map Name full) ->
            filter (fun x => String.eqb (Name x) (Name y)) full = []).
  { intros y Hy. clear - Hy.
    induction full as [ | z full IH]; cbn [filter]; [ reflexivity | ].
    destruct (String.eqb_spec (Name z) (Name y)) as [E | E].
    - exfalso. apply Hy. left. exact E.
    - apply IH. intro H. apply Hy. right. exact H. }
  destruct Hin as [-> | Hin].
  - rewrite String.eqb_refl, (Hnone r Hnot). reflexivity.
  - destruct (String.eqb_spec (Name x) (Name r)) as [E | E].
    + exfalso. apply Hnot. rewrite E. apply in_map. exact Hin.
    + apply IH; assumption.
Qed.

Lemma merge_cons (e : ScheduleEntry) (schedule : list ScheduleEntry)
  (right : list (string * xval)) :
  merge_left_on_Name (e :: schedule) right
  = match filter (fun kv => String.eqb (fst kv) (entry_Name e)) right with
    | [] => [(e, NaN)]
    | matches => map (fun kv => (e, snd kv)) matches
    end ++ merge_left_on_Name schedule right.
Proof. reflexivity. Qed.

Lemma merge_distinct_names (now : Z) (full rows : list BondRecord) :
  NoDup (map Name full) -> incl rows full ->
  merge_left_on_Name (map (schedule_entry now) rows)
    (map (fun r => (Name r, Conversion_Price r)) full)
  = map (fun r => (schedule_entry now r, Conversion_Price r)) rows.
Proof.
  intros Hnd. induction rows as [ | r rows IH]; intro Hincl; [ reflexivity | ].
  cbn [map]. rewrite merge_cons.
  rewrite IH by (intros x Hx; apply Hincl; right; exact Hx).
  rewrite filter_map_swap. cbn [fst entry_Name schedule_entry].
  rewrite (@same_name_unique full r Hnd) by (apply Hincl; left; reflexivity).
  reflexivity.
Qed.

Lemma merge_length (schedule : list ScheduleEntry) (right : list (string * xval)) :
  (List.length schedule <= List.length (merge_left_on_Name schedule right))%nat.
Proof.
  induction schedule as [ | e schedule IH]; [ cbn; lia | ].
  rewrite merge_cons, length_app.
  destruct (filter _ right) as [ | kv kvs]; cbn [map List.length]; lia.
Qed.

(** X21: the refinancing table never has fewer rows than the portfolio
    has bonds; when the bond names are pairwise distinct it has exactly
    one row per bond, in the order of the schedule, with the bond's
    name, maturity and notional.  (A name shared by several bonds is
    joined with each of them.) *)
Theorem X21_refinancing_rows_per_bond
  (df : list BondRecord) (now : Z) (price : num) :
  let analyzer := MaturityAnalysis.__init__ df in
  let rows := assess_refinancing_risk analyzer now price in
  (List.length df <= List.length rows)%nat
  /\ (NoDup (map Name df) ->
      map (fun row => (ref_Name row, ref_Maturity row, ref_Notional row)) rows
      = map entry_key (get_maturity_schedule analyzer now)).
Proof.
  intros analyzer rows. subst rows. unfold assess_refinancing_risk. split.
  - rewrite length_map.
    etransitivity; [ | apply merge_length ].
    unfold get_maturity_schedule. rewrite length_map.
    rewrite (Permutation_length (sort_values_perm df)). reflexivity.
  - intro Hnd.
    assert (Hnd' : NoDup (map Name (debt_df analyzer))).
    { eapply Permutation_NoDup; [ | exact Hnd ].
      apply Permutation_map. apply sort_values_perm. }
    rewrite schedule_as_map.
    rewrite (@merge_distinct_names now _ _ Hnd' (incl_refl _)).
    rewrite !map_map. apply map_ext. intro r. reflexivity.
Qed.

(** X22: at a price of 50,000 or less (or [nan]) every bond needs
    refinancing and its cash requirement is its notional, whether or not
    it has a conversion price.  Above 50,000 a row is marked as likely to
    convert, with a cash requirement of 0, exactly when the conversion
    price joined to it is present. *)
Theorem X22_refinancing_classification
  (df : list BondRecord) (now : Z) (price : num) :
  let analyzer := MaturityAnalysis.__init__ df in
  let rows := assess_refinancing_risk analyzer now price in
  (num_lt (py 50000) price = false ->
   Forall (fun row => ref_Status row = Needs_Refinancing
                      /\ Cash_Requirement row = ref_Notional row) rows)
  /\ (num_lt (py 50000) price = true -> NoDup (map Name df) ->
      Forall2 (fun r row =>
                 ref_Name row = Name r
                 /\ (ref_Status row = Likely_Converts
                     <-> xis_nan (Conversion_Price r) = false)
                 /\ Cash_Requirement row
                    = if xis_nan (Conversion_Price r) then Notional r else Fin 0)
              (debt_df analyzer) rows).
Proof.
  intros analyzer rows. subst rows. unfold assess_refinancing_risk. split.
  - intro Hlow. apply Forall_map. apply Forall_forall.
    intros [e conv] _. rewrite Hlow, andb_false_r. cbn. split; reflexivity.
  - intros Hhigh Hnd.
    assert (Hnd' : NoDup (map Name (debt_df analyzer))).
    { eapply Permutation_NoDup; [ | exact Hnd ].
      apply Permutation_map. apply sort_values_perm. }
    rewrite schedule_as_map.
    rewrite (@merge_distinct_names now _ _ Hnd' (incl_refl _)).
    rewrite map_map, Hhigh. clear Hnd'.
    induction (debt_df analyzer) as [ | r l IH]; cbn [map];
      constructor; [ | exact IH ].
    rewrite andb_true_r.
    cbn [ref_Name ref_Status Cash_Requirement entry_Name entry_Notional
         schedule_entry].
    destruct (xis_nan (Conversion_Price r)); cbn [negb];
      repeat split; try reflexivity; discriminate.
Qed.


(** *** Maturity wall *)






Definition dated (e : ScheduleEntry) : bool :=
  match entry_year e with
  | Some _ => true
  | None => false
  end.





End MaturityMore.

(* ================================================================== *)
(** * src/utils/helpers.py *)
(* ================================================================== *)

Module Helpers.

Definition num_add (a b : num) : num :=
  Num (np a || np b) (xadd (val a) (val b)).

(** [a <= b] on floats; false as soon as one is [nan]. *)
Definition xleb (a b : xval) : bool :=
  match a, b with
  | NaN, _ | _, NaN => false
  | Fin p, Fin q => Qle_bool p q
  | NInf, _ | _, PInf => true
  | _, _ => false
  end.

Definition num_le (a b : num) : bool := xleb (val a) (val b).

(** [calculate_yield_to_maturity]: the approximate yield, in percent. *)
Definition calculate_yield_to_maturity
  (price face_value coupon years_to_maturity : num) : result num :=
  if num_le years_to_maturity (py 0) then Ok (py 0)
  else
    rbind (num_div coupon (py 100)) (fun rate =>
    let annual_coupon := num_mul face_value rate in
    rbind (num_div (num_sub face_value price) years_to_maturity) (fun gain =>
    rbind (num_div (num_add face_value price) (py 2)) (fun average =>
    rbind (num_div (num_add annual_coupon gain) average) (fun ytm =>
    Ok (num_mul ytm (py 100)))))).

(** [np.maximum(a, b)]: the larger one, [nan] as soon as one is [nan]. *)
Definition xmax (a b : xval) : xval :=
  match a, b with
  | NaN, _ | _, NaN => NaN
  | _, _ => if xleb a b then b else a
  end.

(** [np.minimum(a, b)] *)
Definition xmin (a b : xval) : xval :=
  match a, b with
  | NaN, _ | _, NaN => NaN
  | _, _ => if xleb a b then a else b
  end.

Fixpoint accumulate_from (m : xval) (values : list xval) : list xval :=
  match values with
  | [] => []
  | v :: values' => xmax m v :: accumulate_from (xmax m v) values'
  end.

(** [np.maximum.accumulate(values)]: the running maximum. *)
Definition maximum_accumulate (values : list xval) : list xval :=
  match values with
  | [] => []
  | v :: values' => v :: accumulate_from v values'
  end.

(** [(values - cummax) / cummax], element by element. *)
Fixpoint drawdowns (values cummax : list xval) : list xval :=
  match values, cummax with
  | v :: values', m :: cummax' => xdiv (xsub v m) m :: drawdowns values' cummax'
  | _, _ => []
  end.

(** [array.min()] of an array that is not empty. *)
Definition array_min (first : xval) (others : list xval) : xval :=
  fold_left xmin others first.

(** [calculate_max_drawdown] on a float array. *)
Definition calculate_max_drawdown (values : list xval) : num :=
  match values with
  | [] => py 0
  | _ =>
      match drawdowns values (maximum_accumulate values) with
      | d :: ds => npf (xmul (array_min d ds) (Fin 100))
      | [] => py 0
      end
  end.

End Helpers.

Section HelpersFacts.
Import Helpers.

Lemma Qle_bool_false (a b : Q) : b < a -> Qle_bool a b = false.
Proof.
  intro H. destruct (Qle_bool a b) eqn:E; [ | reflexivity ].
  apply Qle_bool_iff in E. lra.
Qed.

(** X24: on built-in numbers, with a positive face value, a positive
    price, a positive time to maturity and a coupon that is not
    negative, the approximate yield is returned and lies on the side of
    the coupon on which the face value lies of the price: a bond below
    par yields more than its coupon, a bond above par less.  With no time
    left the yield is 0. *)
Theorem X24_yield_against_coupon (price face coupon years : Q)
  (Hprice : 0 < price) (Hface : 0 < face)
  (Hcoupon : 0 <= coupon) (Hyears : 0 < years) :
  (exists ytm,
     calculate_yield_to_maturity (py price) (py face) (py coupon) (py years)
     = Ok (py ytm)
     /\ (price < face -> coupon < ytm)
     /\ (face < price -> ytm < coupon))
  /\ forall past, past <= 0 ->
       calculate_yield_to_maturity (py price) (py face) (py coupon) (py past)
       = Ok (py 0).
Proof.
  split.
  - unfold calculate_yield_to_maturity, num_le, num_add, num_sub, num_mul, py.
    cbn [val np orb xleb xadd xsub xneg xmul].
    rewrite (Qle_bool_false Hyears).
    rewrite (@num_div_nonzero false false coupon 100 eq_refl). cbn [rbind val np orb xmul].
    rewrite (@num_div_nonzero false false _ years (Qis_zero_pos Hyears)).
    cbn [rbind val np orb xadd].
    rewrite (@num_div_nonzero false false (face + price) 2 eq_refl).
    cbn [rbind val np orb].
    assert (Havg : 0 < (face + price) / 2).
    { apply Qlt_shift_div_l; [ reflexivity | lra ]. }
    rewrite (@num_div_nonzero false false _ _ (Qis_zero_pos Havg)).
    cbn [rbind val np orb xmul].
    eexists. split; [ reflexivity | ].
    set (gain := (face + - price) / years).
    set (ytm := (face * (coupon / 100) + gain) / ((face + price) / 2)).
    assert (Egain : gain * years == face + - price).
    { unfold gain. field. intro E. lra. }
    assert (Eytm : ytm * ((face + price) / 2) == face * (coupon / 100) + gain).
    { unfold ytm. field. intro E. lra. }
    assert (Eavg : (face + price) / 2 == (face + price) * (1 # 2)) by field.
    assert (Ec : coupon / 100 == coupon * (1 # 100)) by field.
    rewrite Eavg, Ec in Eytm. clear Eavg Ec Havg.
    clearbody gain ytm.
    repeat split; intro H.
    + assert (Hg : 0 < gain) by nra.
      assert (Hfc : 0 <= (face - price) * coupon) by nra. nra.
    + assert (Hg : gain < 0) by nra.
      assert (Hfc : 0 <= (price - face) * coupon) by nra. nra.
  - intros past Hpast.
    unfold calculate_yield_to_maturity, num_le, py. cbn [val xleb].
    apply Qle_bool_iff in Hpast. rewrite Hpast. reflexivity.
Qed.

Lemma X24_yield_against_coupon_witness :
  (exists ytm,
     calculate_yield_to_maturity (py 95) (py 100) (py (5 # 8)) (py 4) = Ok (py ytm)
     /\ (95 < 100 -> 5 # 8 < ytm)
     /\ (100 < 95 -> ytm < 5 # 8))
  /\ forall past, past <= 0 ->
       calculate_yield_to_maturity (py 95) (py 100) (py (5 # 8)) (py past)
       = Ok (py 0).
Proof.
  apply (@X24_yield_against_coupon 95 100 (5 # 8) 4);
    reflexivity || discriminate.
Defined.


(** *** Drawdown *)

Lemma xmax_Fin (m v : Q) :
  exists m', xmax (Fin m) (Fin v) = Fin m' /\ m <= m' /\ v <= m'
             /\ (m <= v -> m' = v).
Proof.
  unfold xmax, xleb. destruct (Qle_bool m v) eqn:E.
  - apply Qle_bool_iff in E. exists v.
    split; [ reflexivity | ]. split; [ exact E | ].
    split; [ apply Qle_refl | reflexivity ].
  - exists m. split; [ reflexivity | ]. split; [ apply Qle_refl | ]. split.
    + destruct (Qlt_le_dec v m) as [H | H]; [ lra | ].
      apply Qle_bool_iff in H. congruence.
    + intro H. apply Qle_bool_iff in H. congruence.
Qed.

(** A drawdown of a positive series: a loss of less than everything. *)
Definition partial_loss (d : xval) : Prop :=
  exists q, d = Fin q /\ - (1) < q /\ q <= 0.

Definition no_loss (d : xval) : Prop :=
  exists q, d = Fin q /\ q == 0.

Lemma drawdown_of (v m : Q) :
  0 < v -> v <= m ->
  partial_loss (xdiv (xsub (Fin v) (Fin m)) (Fin m))
  /\ (m = v -> no_loss (xdiv (xsub (Fin v) (Fin m)) (Fin m))).
Proof.
  intros Hv Hm. assert (Hpos : 0 < m) by lra.
  cbn [xsub xneg xadd xdiv]. rewrite (Qis_zero_pos Hpos).
  split.
  - eexists. split; [ reflexivity | ]. split.
    + apply Qlt_shift_div_l; [ exact Hpos | lra ].
    + apply Qle_shift_div_r; [ exact Hpos | lra ].
  - intros ->. eexists. split; [ reflexivity | ]. field. intro E. lra.
Qed.

Lemma drawdowns_from (qs : list Q) (m : Q) :
  0 < m -> Forall (fun q => 0 < q) qs ->
  Forall partial_loss
    (drawdowns (map Fin qs) (accumulate_from (Fin m) (map Fin qs)))
  /\ (StronglySorted Qle (m :: qs) ->
      Forall no_loss
        (drawdowns (map Fin qs) (accumulate_from (Fin m) (map Fin qs)))).
Proof.
  intros Hm Hqs. revert m Hm.
  induction Hqs as [ | v qs Hv _ IH]; intros m Hm; cbn [map accumulate_from drawdowns].
  - split; constructor.
  - destruct (xmax_Fin m v) as [m' [-> [H1 [H2 H3]]]].
    assert (Hm' : 0 < m') by lra.
    destruct (IH m' Hm') as [IHp IHn].
    destruct (drawdown_of Hv H2) as [Dp Dn].
    split.
    + constructor; assumption.
    + intro Hs. apply StronglySorted_inv in Hs. destruct Hs as [Hs Hall].
      assert (Hmv : m <= v) by (inversion Hall; assumption).
      specialize (H3 Hmv). subst m'.
      constructor; [ apply Dn; reflexivity | apply IHn; exact Hs ].
Qed.

Lemma array_min_keeps (P : Q -> Prop) (first : xval) (others : list xval) :
  (exists q, first = Fin q /\ P q) ->
  Forall (fun d => exists q, d = Fin q /\ P q) others ->
  exists q, array_min first others = Fin q /\ P q.
Proof.
  unfold array_min. intros Hfirst Hothers. revert first Hfirst.
  induction Hothers as [ | d ds [q [-> Hq]] _ IH]; intros first [p [-> Hp]];
    cbn [fold_left].
  - exists p. split; [ reflexivity | exact Hp ].
  - apply IH. unfold xmin, xleb.
    destruct (Qle_bool p q); eexists; split; try reflexivity; assumption.
Qed.

(** X25: the maximum drawdown of an empty series is 0; of a series of
    finite, positive values it is a finite percentage that is never
    positive and stays above -100, and it is 0 when the series never
    falls. *)
Theorem X25_max_drawdown_range (first : Q) (others : list Q)
  (Hpos : Forall (fun q => 0 < q) (first :: others)) :
  calculate_max_drawdown [] = py 0
  /\ exists m,
       calculate_max_drawdown (map Fin (first :: others)) = npf (Fin m)
       /\ - (100) < m /\ m <= 0
       /\ (StronglySorted Qle (first :: others) -> m == 0).
Proof.
  split; [ reflexivity | ].
  inversion Hpos as [ | ? ? Hfirst Hothers]; subst.
  destruct (drawdowns_from Hfirst Hothers) as [Hloss Hflat].
  destruct (@drawdown_of first first Hfirst (Qle_refl _)) as [D0 Dn].
  unfold calculate_max_drawdown.
  cbn [map maximum_accumulate drawdowns].
  set (d0 := xdiv (xsub (Fin first) (Fin first)) (Fin first)) in *.
  set (ds := drawdowns (map Fin others)
               (accumulate_from (Fin first) (map Fin others))) in *.
  destruct (@array_min_keeps (fun q => - (1) < q /\ q <= 0) d0 ds)
    as [q [Hq [Hlo Hhi]]].
  { destruct D0 as [q [E [A B]]]. exists q. tauto. }
  { eapply Forall_impl; [ | exact Hloss ].
    intros d [q [E [A B]]]. exists q. tauto. }
  rewrite Hq. cbn [xmul]. eexists. split; [ reflexivity | ].
  split; [ lra | ]. split; [ lra | ].
  intro Hs.
  destruct (@array_min_keeps (fun q => q == 0) d0 ds) as [q' [Hq' Hz]].
  { destruct (Dn eq_refl) as [z [E Z]]. exists z. tauto. }
  { eapply Forall_impl; [ | exact (Hflat Hs) ].
    intros d [z [E Z]]. exists z. tauto. }
  rewrite Hq in Hq'. injection Hq' as <-. lra.
Qed.

Lemma X25_max_drawdown_range_witness :
  calculate_max_drawdown [] = py 0
  /\ exists m,
       calculate_max_drawdown (map Fin [100; 120; 90; 130]) = npf (Fin m)
       /\ - (100) < m /\ m <= 0
       /\ (StronglySorted Qle [100; 120; 90; 130] -> m == 0).
Proof.
  apply (@X25_max_drawdown_range 100 [120; 90; 130]).
  repeat constructor.
Defined.

End HelpersFacts.

(* ================================================================== *)
(** * src/parsers/btc_parser.py *)
(* ================================================================== *)

Module BtcParser.
Import DebtParser.
Local Open Scope string_scope.

(** [parse_currency] and [parse_percentage] of this file are, line for
    line, those of [debt_parser.py]; the definitions above are used. *)

(** A grid item: the first [span] inside it, if any, and the text of
    the value paragraph that follows it, if there is one. *)
Record GridItem : Type := mkItem {
  title_span : option Th;
  large_value : option string
}.

(** The metrics dictionary: keys in insertion order, each with the
    value last assigned to it ([None] for a blank cell). *)
Definition dict : Type := list (string * option xval).

Fixpoint dict_set (key : string) (value : option xval) (d : dict) : dict :=
  match d with
  | [] => [(key, value)]
  | (k, v) :: d' =>
      if String.eqb k key then (key, value) :: d'
      else (k, v) :: dict_set key value d'
  end.

Definition dict_get (key : string) (d : dict) : option (option xval) :=
  option_map snd (find (fun kv => String.eqb (fst kv) key) d).

(** The body of the loop over the grid items. *)
Definition parse_item (metrics : dict) (item : GridItem) : result dict :=
  match title_span item with
  | None => Ok metrics
  | Some title_elem =>
      let title := header_label title_elem in
      match large_value item with
      | None => Ok metrics
      | Some value =>
          if contains "BTC" title && contains "Price" title then
            rbind (parse_currency (Some value))
                  (fun v => Ok (dict_set "btc_price" v metrics))
          else if contains "BTC" title && contains "Hold" title then
            rbind (parse_currency (Some value))
                  (fun v => Ok (dict_set "btc_holdings" v metrics))
          else if contains "Market" title && contains "Val" title then
            rbind (parse_currency (Some value))
                  (fun v => Ok (dict_set "btc_market_value" v metrics))
          else if contains "Volatility" title then
            rbind (parse_percentage (Some value))
                  (fun v => Ok (dict_set "btc_volatility" v metrics))
          else Ok metrics
      end
  end.

Fixpoint parse_items (metrics : dict) (grid_items : list GridItem) : result dict :=
  match grid_items with
  | [] => Ok metrics
  | item :: rest => rbind (parse_item metrics item) (fun m => parse_items m rest)
  end.

(** [parse_btc_holdings], from the grid items that [find_all] returns. *)
Definition parse_btc_holdings (grid_items : list GridItem) : result dict :=
  parse_items [] grid_items.

End BtcParser.

Section BtcParserFacts.
Import DebtParser BtcParser.
Local Open Scope string_scope.

(** The key an item's title selects, by the order of the tests. *)
Definition key_of_title (title : string) : option string :=
  if contains "BTC" title && contains "Price" title then Some "btc_price"
  else if contains "BTC" title && contains "Hold" title then Some "btc_holdings"
  else if contains "Market" title && contains "Val" title
       then Some "btc_market_value"
  else if contains "Volatility" title then Some "btc_volatility"
  else None.

Definition parser_of_key (key : string) : option string -> result (option xval) :=
  if String.eqb key "btc_volatility" then parse_percentage else parse_currency.

Lemma parse_item_by_key (metrics : dict) (span : Th) (value : string) :
  parse_item metrics (mkItem (Some span) (Some value))
  = match key_of_title (header_label span) with
    | Some key =>
        rbind (parser_of_key key (Some value))
              (fun v => Ok (dict_set key v metrics))
    | None => Ok metrics
    end.
Proof.
  unfold parse_item, key_of_title. cbn [title_span large_value].
  destruct (contains "BTC" (header_label span) && contains "Price" (header_label span));
    [ reflexivity | ].
  destruct (contains "BTC" (header_label span) && contains "Hold" (header_label span));
    [ reflexivity | ].
  destruct (contains "Market" (header_label span) && contains "Val" (header_label span));
    [ reflexivity | ].
  destruct (contains "Volatility" (header_label span)); reflexivity.
Qed.

Lemma parse_items_app (metrics : dict) (l1 l2 : list GridItem) :
  parse_items metrics (l1 ++ l2)%list
  = rbind (parse_items metrics l1) (fun m => parse_items m l2).
Proof.
  revert metrics. induction l1 as [ | item l1 IH]; intro metrics;
    cbn [app parse_items rbind]; [ reflexivity | ].
  destruct (parse_item metrics item) as [m | e]; cbn [rbind];
    [ apply IH | reflexivity ].
Qed.

(** An item the loop passes over: no [span], no value paragraph, or a
    title that selects no key. *)
Definition passed_over (item : GridItem) : Prop :=
  match title_span item, large_value item with
  | Some span, Some _ => key_of_title (header_label span) = None
  | _, _ => True
  end.

(** X26: a grid item without a title [span], without a value paragraph
    or with a title that matches none of the four patterns changes
    nothing, even when its value is not a number: wherever it stands,
    the result is the one obtained without it. *)
Theorem X26_unmatched_grid_item_is_ignored
  (before after : list GridItem) (item : GridItem)
  (Hitem : passed_over item) :
  parse_btc_holdings (before ++ item :: after)%list
  = parse_btc_holdings (before ++ after)%list.
Proof.
  unfold parse_btc_holdings. rewrite !parse_items_app.
  destruct (parse_items [] before) as [m | e]; cbn [rbind parse_items];
    [ | reflexivity ].
  assert (Hstep : parse_item m item = Ok m).
  { destruct item as [[span | ] [value | ]]; try reflexivity.
    rewrite parse_item_by_key. unfold passed_over in Hitem.
    cbn [title_span large_value] in Hitem. rewrite Hitem. reflexivity. }
  rewrite Hstep. reflexivity.
Qed.

Lemma X26_unmatched_grid_item_is_ignored_witness :
  parse_btc_holdings
    ([mkItem (Some (mkTh None "BTC Price")) (Some "$100,000")]
     ++ mkItem (Some (mkTh (Some "Shares outstanding") "x")) (Some "n/a")
     :: [mkItem (Some (mkTh None "BTC Holdings")) (Some "447,470")])%list
  = parse_btc_holdings
      ([mkItem (Some (mkTh None "BTC Price")) (Some "$100,000")]
       ++ [mkItem (Some (mkTh None "BTC Holdings")) (Some "447,470")])%list.
Proof.
  apply (@X26_unmatched_grid_item_is_ignored
           [mkItem (Some (mkTh None "BTC Price")) (Some "$100,000")]
           [mkItem (Some (mkTh None "BTC Holdings")) (Some "447,470")]
           (mkItem (Some (mkTh (Some "Shares outstanding") "x")) (Some "n/a"))).
  reflexivity.
Defined.

Lemma dict_get_set_same (key : string) (value : option xval) (d : dict) :
  dict_get key (dict_set key value d) = Some value.
Proof.
  unfold dict_get. induction d as [ | [k v] d IH]; cbn [dict_set find fst].
  - rewrite String.eqb_refl. reflexivity.
  - destruct (String.eqb k key) eqn:E; cbn [find fst].
    + rewrite String.eqb_refl. reflexivity.
    + rewrite E. exact IH.
Qed.

Lemma dict_get_set_other (key other : string) (value : option xval) (d : dict) :
  other <> key -> dict_get other (dict_set key value d) = dict_get other d.
Proof.
  intro Hne. unfold dict_get.
  induction d as [ | [k v] d IH]; cbn [dict_set find fst].
  - destruct (String.eqb_spec key other); [ congruence | reflexivity ].
  - destruct (String.eqb_spec k key) as [-> | Hk]; cbn [find fst].
    + destruct (String.eqb_spec key other); [ congruence | reflexivity ].
    + destruct (String.eqb k other); [ reflexivity | exact IH ].
Qed.

(** X27: the last item of a kind decides: when the items so far parse
    to some metrics and a further item selects a key and carries a value
    its parser accepts, the result holds that value under that key and,
    under every other key, what the metrics held before. *)
Theorem X27_last_grid_item_wins
  (items : list GridItem) (metrics : dict)
  (span : Th) (value key : string) (v : option xval)
  (Hitems : parse_btc_holdings items = Ok metrics)
  (Hkey : key_of_title (header_label span) = Some key)
  (Hvalue : parser_of_key key (Some value) = Ok v) :
  exists metrics',
    parse_btc_holdings (items ++ [mkItem (Some span) (Some value)])%list
    = Ok metrics'
    /\ dict_get key metrics' = Some v
    /\ forall other, other <> key -> dict_get other metrics' = dict_get other metrics.
Proof.
  unfold parse_btc_holdings in *. rewrite parse_items_app, Hitems.
  cbn [rbind parse_items]. rewrite parse_item_by_key, Hkey, Hvalue.
  cbn [rbind]. eexists. split; [ reflexivity | ].
  split; [ apply dict_get_set_same | ].
  intros other Hne. apply dict_get_set_other. exact Hne.
Qed.

Lemma X27_last_grid_item_wins_witness :
  exists metrics',
    parse_btc_holdings
      ([mkItem (Some (mkTh None "BTC Price")) (Some "$95,000");
        mkItem (Some (mkTh None "BTC Holdings")) (Some "447,470")]
       ++ [mkItem (Some (mkTh (Some "BTC Price (USD)") "Price")) (Some "$100,000")])%list
    = Ok metrics'
    /\ dict_get "btc_price" metrics' = Some (Some (Fin 100000))
    /\ forall other, other <> "btc_price" ->
         dict_get other metrics'
         = dict_get other [("btc_price", Some (Fin 95000));
                           ("btc_holdings", Some (Fin 447470))].
Proof.
  apply (@X27_last_grid_item_wins
           [mkItem (Some (mkTh None "BTC Price")) (Some "$95,000");
            mkItem (Some (mkTh None "BTC Holdings")) (Some "447,470")]
           [("btc_price", Some (Fin 95000)); ("btc_holdings", Some (Fin 447470))]
           (mkTh (Some "BTC Price (USD)") "Price") "$100,000" "btc_price"
           (Some (Fin 100000)));
    reflexivity.
Defined.

End BtcParserFacts.
